(** * SynD: the model base classes of [synd/models/base.py]

    A shallow embedding of [_SerializableMixin] and [SynDModel]: the
    backmapper registry (a Python dict keyed by name), the generator
    function [generate_trajectories] as an explicit coroutine state
    machine, the single-result wrapper [generate_trajectory], and the
    pickle-based [serialize] / [deserialize] pair with its [isinstance]
    guard.

    Python raises exceptions and mutates [self] in place: methods are
    computations in a state-and-exception monad over the instance, in which
    a raised exception keeps whatever the instance was at the raise. *)

From Stdlib Require Import Init.Byte.
From stdpp Require Import gmap strings list fin_maps.

Set Default Proof Using "Type".

(** ** Optional keyword parameters *)

(** A parameter with a default value is either left out by the caller or
    passed; the callee sees the default in the first case. *)
Inductive arg (A : Type) : Type :=
| Omitted
| Passed (a : A).
Arguments Omitted {A}.
Arguments Passed {A} a.

Definition arg_or {A : Type} (default : A) (x : arg A) : A :=
  match x with
  | Omitted => default
  | Passed a => a
  end.

(** ** The values the module handles *)

(** Python is untyped; the module stores and passes on values of these
    kinds without looking inside them. *)
Class PyValues : Type := {
  Class : Type;                      (* class objects *)
  Class_eq_dec :: EqDecision Class;
  ancestors : Class → list Class;    (* the classes after [cls] itself in [cls.__mro__] *)
  virtual_subclass : Class → Class → bool;
                                     (* [virtual_subclass sub cls]: the ABC machinery of [cls]
                                        takes [sub] for a subclass, through [cls.register] or a
                                        [__subclasshook__]; false when [cls] is no ABC *)
  State : Type;                      (* an initial state *)
  Traj : Type;                       (* a trajectory, raw or mapped *)
  Length : Type;                     (* the [length] argument, a [Real] *)
  Kwargs : Type;                     (* the [**kwargs] passed on to the subclass *)
  Env : Type;                        (* the attributes a concrete subclass keeps on the instance *)
}.

Section Model.

Context {py : PyValues}.

(** ** Exceptions *)

(** The text of an exception.  The source builds it with an f-string around
    [repr(name)] or the class; the constructor keeps which text it is and
    the value that is formatted into it. *)
Inductive message : Type :=
| already_defined (name : string)   (* a backmapper named {name!r} is already defined for this model *)
| not_defined (name : string)       (* no backmapper named {name!r} is defined for this model *)
| not_instance (cls : Class)        (* object must be an instance of {cls} *)
| generator_raised_StopIteration.   (* the interpreter's text, PEP 479 *)

(** The exception classes that the module raises or lets through.
    [OtherError] stands for any exception class of a collaborator (a
    concrete model, pickle) that the module does not single out. *)
Inductive exn : Type :=
| ValueError (msg : message)
| TypeError (msg : message)
| RuntimeError (msg : message)
| StopIteration
| OtherError (kind : string).

(** A call either raises or returns. *)
Definition result (A : Type) : Type := exn + A.

(** Function objects, and calling one on a trajectory. *)
Class Callables : Type := {
  Callable : Type;
  call : Callable → Traj → result Traj;
}.

Context {fns : Callables}.

(** ** The instance *)

(** A [SynDModel] instance: its class, the [_backmappers] dict set up by
    [__init__], and the remaining attributes of the concrete subclass.
    The dict is kept as the function from names it stands for; the order of
    its entries, which no method of the class reads, is not kept. *)
Record SynDModel : Type := mkSynDModel {
  ob_type : Class;
  _backmappers : gmap string Callable;
  ob_state : Env;
}.

Definition with_backmappers (d : gmap string Callable) (self : SynDModel) : SynDModel :=
  {| ob_type := ob_type self; _backmappers := d; ob_state := ob_state self |}.

Definition with_state (e : Env) (self : SynDModel) : SynDModel :=
  {| ob_type := ob_type self; _backmappers := _backmappers self; ob_state := e |}.

(** ** The method monad *)

(** A method body: from the instance to what it raises or returns,
    together with the instance as the body left it. *)
Definition M (A : Type) : Type := SynDModel → result A * SynDModel.

Definition ret {A} (a : A) : M A := λ self, (inr a, self).
Definition raise {A} (e : exn) : M A := λ self, (inl e, self).
Definition bind {A B} (m : M A) (k : A → M B) : M B :=
  λ self,
    match m self with
    | (inl e, self') => (inl e, self')
    | (inr a, self') => k a self'
    end.
Definition get_attr {A} (field : SynDModel → A) : M A := λ self, (inr (field self), self).
Definition set_backmappers (d : gmap string Callable) : M unit :=
  λ self, (inr tt, with_backmappers d self).

#[local] Instance M_ret : MRet M := @ret.
#[local] Instance M_bind : MBind M := λ A B k m, bind m k.

(** ** The backmapper registry *)

(** [name in self._backmappers] *)
Definition contains (d : gmap string Callable) (name : string) : bool :=
  bool_decide (is_Some (d !! name)).

(** [add_backmapper], lines 103-107. *)
Definition add_backmapper (backmapper : Callable) (name : string) : M unit :=
  d ← get_attr _backmappers;
  if contains d name
  then raise (ValueError (already_defined name))
  else set_backmappers (<[name := backmapper]> d).

(** [remove_backmapper], lines 109-113; [dict.pop] of a present key. *)
Definition remove_backmapper (name : string) : M unit :=
  d ← get_attr _backmappers;
  if negb (contains d name)
  then raise (ValueError (not_defined name))
  else set_backmappers (delete name d).

(** [get_backmapper], lines 115-119.  The subscript of a present key
    cannot fail; the last branch is the [KeyError] it would raise. *)
Definition get_backmapper (name : string) : M Callable :=
  d ← get_attr _backmappers;
  if negb (contains d name)
  then raise (ValueError (not_defined name))
  else match d !! name with
       | Some f => ret f
       | None => raise (OtherError "KeyError")
       end.

(** The [default_backmapper] property, lines 95-97: [dict.get] returns
    [None] for a missing key. *)
Definition default_backmapper : M (option Callable) :=
  d ← get_attr _backmappers;
  ret (d !! "default").

(** The [default_backmapper] setter, lines 99-101. *)
Definition set_default_backmapper (value : Callable) : M unit :=
  add_backmapper value "default".

(** [__init__], lines 90-93, on the instance being constructed. *)
Definition __init__ (default_backmapper : option Callable) : M unit :=
  set_backmappers ∅;;
  match default_backmapper with
  | Some f => set_default_backmapper f
  | None => ret tt
  end.


(** ** The abstract method *)

(** What a concrete subclass supplies.  [generate_unmapped_trajectories]
    is the abstract method of lines 121-128 followed by the [iter()] that
    the [for] statement applies to what it returns: it may raise, and
    otherwise gives an iterator.  [raw_next] is that iterator's
    [__next__]: it returns the next raw trajectory, raises [StopIteration]
    when exhausted, or raises something else.  Both may read and update the
    subclass's own attributes, not the registry. *)
Class ConcreteModel : Type := {
  RawIter : Type;
  generate_unmapped_trajectories :
    Length → list State → Kwargs → Env → result RawIter * Env;
  raw_next : RawIter → Env → result (Traj * RawIter) * Env;
}.

Context {impl : ConcreteModel}.

(** [list(self.generate_unmapped_trajectories(length, initial_states, **kwargs))]:
    the raw trajectories the iterator gives until it is exhausted.  One
    unit of fuel pays for one [__next__]; [None] is fuel run out. *)
Fixpoint raw_list (fuel : nat) (it : RawIter) (env : Env)
  : option (result (list Traj) * Env) :=
  match fuel with
  | O => None
  | S fuel' =>
      match raw_next it env with
      | (inr (traj, it'), env') =>
          match raw_list fuel' it' env' with
          | Some (inr trajs, env'') => Some (inr (traj :: trajs), env'')
          | other => other
          end
      | (inl StopIteration, env') => Some (inr [], env')
      | (inl e, env') => Some (inl e, env')
      end
  end.

Definition list_unmapped_trajectories (fuel : nat)
    (length : Length) (initial_states : list State) (kwargs : Kwargs)
    (self : SynDModel) : option (result (list Traj) * SynDModel) :=
  match generate_unmapped_trajectories length initial_states kwargs (ob_state self) with
  | (inl e, env) => Some (inl e, with_state env self)
  | (inr it, env) =>
      match raw_list fuel it env with
      | Some (r, env') => Some (r, with_state env' self)
      | None => None
      end
  end.

(** ** The generator [generate_trajectories] *)

(** A generator object made by [generate_trajectories]: its frame either
    has not started (it holds the arguments), is suspended at the [yield]
    of line 142 (it holds the local [backmapper], by then the resolved
    function or [None], and the iterator of the [for]), or has finished. *)
Inductive generator : Type :=
| gi_created (length : Length) (initial_states : list State)
             (backmapper : option string) (kwargs : Kwargs)
| gi_suspended (backmapper : option Callable) (it : RawIter)
| gi_closed.

(** Calling the generator function, lines 130-136: it binds the arguments,
    the default of [backmapper] being the string ['default'], and returns
    the generator object; no line of the body runs. *)
Definition generate_trajectories
    (length : Length) (initial_states : list State)
    (backmapper : arg (option string)) (kwargs : Kwargs) : M generator :=
  ret (gi_created length initial_states (arg_or (Some "default") backmapper) kwargs).

(** A [StopIteration] that escapes the body of a generator reaches the
    caller as a [RuntimeError] (PEP 479). *)
Definition escape_generator (e : exn) : exn :=
  match e with
  | StopIteration => RuntimeError generator_raised_StopIteration
  | _ => e
  end.

(** Lines 137-138: [backmapper] is rebound from the name to the function. *)
Definition resolve (backmapper : option string) : M (option Callable) :=
  match backmapper with
  | Some name => f ← get_backmapper name; mret (Some f)
  | None => mret None
  end.

(** Lines 140-141: the call of the function may raise. *)
Definition apply_backmapper (backmapper : option Callable) (traj : Traj) : result Traj :=
  match backmapper with
  | Some f => call f traj
  | None => inr traj
  end.

(** One turn of the [for] loop, lines 139-142, up to the next [yield]: the
    loop ends when the iterator raises [StopIteration], the body then
    returns and the generator's own [__next__] raises [StopIteration].
    Anything else the iterator raises, and anything the backmapper raises,
    leaves the body and closes the generator. *)
Definition for_step (backmapper : option Callable) (it : RawIter) (self : SynDModel)
  : result Traj * generator * SynDModel :=
  match raw_next it (ob_state self) with
  | (inr (traj, it'), env) =>
      match apply_backmapper backmapper traj with
      | inr traj => (inr traj, gi_suspended backmapper it', with_state env self)
      | inl e => (inl (escape_generator e), gi_closed, with_state env self)
      end
  | (inl StopIteration, env) => (inl StopIteration, gi_closed, with_state env self)
  | (inl e, env) => (inl e, gi_closed, with_state env self)
  end.

(** [next(g)]: run the frame to its next [yield], or to its end. *)
Definition next (g : generator) (self : SynDModel)
  : result Traj * generator * SynDModel :=
  match g with
  | gi_created length initial_states backmapper kwargs =>
      match resolve backmapper self with
      | (inl e, self) => (inl (escape_generator e), gi_closed, self)
      | (inr backmapper, self) =>
          match generate_unmapped_trajectories length initial_states kwargs (ob_state self) with
          | (inl e, env) => (inl (escape_generator e), gi_closed, with_state env self)
          | (inr it, env) => for_step backmapper it (with_state env self)
          end
      end
  | gi_suspended backmapper it => for_step backmapper it self
  | gi_closed => (inl StopIteration, gi_closed, self)
  end.

(** [next(iter(g))] on a generator object that the caller then drops;
    [iter] of a generator is the generator itself. *)
Definition next_iter (g : generator) : M Traj :=
  λ self, let '(r, _, self') := next g self in (r, self').

(** [generate_trajectory], lines 144-156. *)
Definition generate_trajectory
    (length : Length) (initial_state : State)
    (backmapper : arg (option string)) (kwargs : Kwargs) : M Traj :=
  let backmapper := arg_or (Some "default") backmapper in
  g ← generate_trajectories length [initial_state] (Passed backmapper) kwargs;
  next_iter g.

(** ** Consumers of the generator *)

(** [list(g)]: call [next] until [StopIteration]. *)
Fixpoint py_list (fuel : nat) (g : generator) (self : SynDModel)
  : option (result (list Traj) * SynDModel) :=
  match fuel with
  | O => None
  | S fuel' =>
      match next g self with
      | (inr traj, g', self') =>
          match py_list fuel' g' self' with
          | Some (inr trajs, self'') => Some (inr (traj :: trajs), self'')
          | other => other
          end
      | (inl StopIteration, _, self') => Some (inr [], self')
      | (inl e, _, self') => Some (inl e, self')
      end
  end.

(** [list(self.generate_trajectories(length, initial_states, backmapper, **kwargs))] *)
Definition list_trajectories (fuel : nat)
    (length : Length) (initial_states : list State)
    (backmapper : arg (option string)) (kwargs : Kwargs)
    (self : SynDModel) : option (result (list Traj) * SynDModel) :=
  match generate_trajectories length initial_states backmapper kwargs self with
  | (inl e, self) => Some (inl e, self)
  | (inr g, self) => py_list fuel g self
  end.

(** What a caller may do between two [next]s on a generator it holds: the
    generator and the caller share the one instance. *)
Inductive action : Type :=
| do_next
| do_add (backmapper : Callable) (name : string)
| do_remove (name : string).

(** A caller that performs the actions in turn, catching what the registry
    calls raise, and collects what each [next] returned or raised. *)
Fixpoint consume (acts : list action) (g : generator) (self : SynDModel)
  : list (result Traj) * generator * SynDModel :=
  match acts with
  | [] => ([], g, self)
  | do_next :: acts' =>
      let '(r, g', self') := next g self in
      let '(rs, g'', self'') := consume acts' g' self' in
      (r :: rs, g'', self'')
  | do_add f name :: acts' => consume acts' g (add_backmapper f name self).2
  | do_remove name :: acts' => consume acts' g (remove_backmapper name self).2
  end.

(** ** Persistence *)

(** The objects pickle can hand back: an instance of a model class with
    its attributes, or an object of some other class. *)
Inductive PyObject : Type :=
| Instance (self : SynDModel)
| Foreign (cls : Class).

Definition type (obj : PyObject) : Class :=
  match obj with
  | Instance self => ob_type self
  | Foreign cls => cls
  end.

(** [isinstance(obj, cls)]: the class of [obj] is [cls] or inherits from
    it, or, [SynDModel] being an ABC, the class of [obj] is a virtual
    subclass of [cls]. *)
Definition isinstance (obj : PyObject) (cls : Class) : bool :=
  bool_decide (cls ∈ type obj :: ancestors (type obj))
  || virtual_subclass (type obj) cls.

(** [pickle.dumps] and [pickle.loads]: either may raise. *)
Class Pickle : Type := {
  pickle_dumps : PyObject → result (list byte);
  pickle_loads : list byte → result PyObject;
}.

Context {pk : Pickle}.

(** [serialize], lines 23-32. *)
Definition serialize (self : SynDModel) : result (list byte) :=
  pickle_dumps (Instance self).

(** [deserialize], lines 34-52. *)
Definition deserialize (cls : Class) (serialized : list byte) : result PyObject :=
  match pickle_loads serialized with
  | inl e => inl e
  | inr obj =>
      if negb (isinstance obj cls)
      then inl (TypeError (not_instance cls))
      else inr obj
  end.

(** ** Comparing two runs of a generator *)

(** The actions of a caller that are [next]s. *)
Definition is_next (a : action) : bool :=
  match a with
  | do_next => true
  | _ => false
  end.

(** The function object [f] returns on every trajectory, and [fn] is what
    it returns. *)
Definition computes (f : Callable) (fn : Traj → Traj) : Prop :=
  ∀ traj : Traj, call f traj = inr (fn traj).

(** A generator past its first [next]. *)
Definition started (g : generator) : Prop :=
  match g with
  | gi_created _ _ _ _ => False
  | _ => True
  end.

(** A generator past its first [next] whose frame holds no function:
    what it yields is the raw trajectory. *)
Definition raw_frame (g : generator) : Prop :=
  match g with
  | gi_created _ _ _ _ => False
  | gi_suspended backmapper _ => backmapper = None
  | gi_closed => True
  end.

(** The same generator with [backmapper] in its frame. *)
Definition rebound (backmapper : option Callable) (g : generator) : generator :=
  match g with
  | gi_suspended _ it => gi_suspended backmapper it
  | _ => g
  end.

(** What a [next] gives when the trajectory goes through [fn] where a raw
    frame gives [r]. *)
Definition mapped (fn : Traj → Traj) (r : result Traj) : result Traj :=
  match r with
  | inl e => inl e
  | inr traj => inr (fn traj)
  end.

(** ** Pickle's side of persistence *)

(** The registries of [m] and [m'] have the same names, and each name
    resolves to functions that return the same on every trajectory. *)
Definition same_backmappers (m m' : SynDModel) : Prop :=
  ∀ name : string,
    match _backmappers m !! name, _backmappers m' !! name with
    | Some f, Some f' => ∀ traj : Traj, call f traj = call f' traj
    | None, None => True
    | _, _ => False
    end.

(** Pickle round-trips the instance [m]: from what [pickle.dumps] gives
    for it, [pickle.loads] rebuilds an instance of the class of [m] with
    the same backmappers. *)
Definition round_trips (m : SynDModel) : Prop :=
  ∀ serialized : list byte,
    pickle_dumps (Instance m) = inr serialized →
    ∃ m' : SynDModel,
      pickle_loads serialized = inr (Instance m')
      ∧ ob_type m' = ob_type m
      ∧ same_backmappers m m'.

(** ** The call that would raise *)

(** The reading under which a name that is not registered makes the call
    of [generate_trajectories] itself raise the [ValueError]. *)
Definition raises_at_the_call (self : SynDModel) (length : Length)
    (initial_states : list State) (name : string) (kwargs : Kwargs) : Prop :=
  ∃ msg : message,
    (generate_trajectories length initial_states (Passed (Some name)) kwargs self).1
    = inl (ValueError msg).

(** ** The claims as worded, where the code differs *)

(** One trajectory for each initial state, whatever the concrete model:
    listing [generate_trajectories] gives as many trajectories as there are
    initial states. *)
Definition yields_one_per_state (fuel : nat) (self : SynDModel) (length : Length)
    (initial_states : list State) (backmapper : arg (option string))
    (kwargs : Kwargs) : Prop :=
  ∃ (trajs : list Traj) (self' : SynDModel),
    list_trajectories fuel length initial_states backmapper kwargs self
    = Some (inr trajs, self')
    ∧ List.length trajs = List.length initial_states.

(** On every byte sequence [deserialize] does one of two things: it raises
    a [TypeError], or it returns the object rebuilt from the bytes. *)
Definition raises_TypeError_or_returns (cls : Class) (serialized : list byte) : Prop :=
  (∃ msg, deserialize cls serialized = inl (TypeError msg))
  ∨ (∃ obj, deserialize cls serialized = inr obj).


(** ** Instances that agree *)

(** Two instances of one class in which every name resolves alike and the
    attributes of the subclass are the same. *)
Definition same_registry (a b : SynDModel) : Prop :=
  (∀ name : string, _backmappers a !! name = _backmappers b !! name)
  ∧ ob_type a = ob_type b
  ∧ ob_state a = ob_state b.

(** ** Taking from the raw iterator *)

(** [k] calls of [__next__] on the raw iterator, stopping at the first one
    that raises: the trajectories returned, then the iterator as it is left
    or what was raised, and the subclass's attributes. *)
Fixpoint raw_take (k : nat) (it : RawIter) (env : Env)
  : list Traj * result RawIter * Env :=
  match k with
  | O => ([], inr it, env)
  | S k' =>
      match raw_next it env with
      | (inr (traj, it'), env') =>
          let '(trajs, r, env'') := raw_take k' it' env' in
          (traj :: trajs, r, env'')
      | (inl e, env') => ([], inl e, env')
      end
  end.

(** ** Files *)

(** The files a process sees: what each path holds, and the paths that
    cannot be opened for writing. *)
Record FileSystem : Type := mkFileSystem {
  files : gmap string (list byte);
  unwritable : gset string;
}.

Definition with_files (d : gmap string (list byte)) (fs : FileSystem) : FileSystem :=
  {| files := d; unwritable := unwritable fs |}.

(** [open(file, 'wb')]: some paths are refused; otherwise the file exists
    and is empty from the moment it is opened. *)
Definition open_wb (file : string) (fs : FileSystem) : result unit * FileSystem :=
  if bool_decide (file ∈ unwritable fs)
  then (inl (OtherError "OSError"), fs)
  else (inr tt, with_files (<[file := []]> (files fs)) fs).

(** [f.write(data)] on the file opened at [file]: after what it holds. *)
Definition write (file : string) (data : list byte) (fs : FileSystem) : FileSystem :=
  with_files (<[file := default [] (files fs !! file) ++ data]> (files fs)) fs.

(** [open(file, 'rb')] followed by [f.read()]. *)
Definition read_rb (file : string) (fs : FileSystem) : result (list byte) :=
  match files fs !! file with
  | Some data => inr data
  | None => inl (OtherError "FileNotFoundError")
  end.

(** [save], lines 54-64.  The [with] statement opens the file first; the
    argument of [f.write], the call of [serialize], is evaluated after
    that, and the file is closed on the way out whatever happened. *)
Definition save (self : SynDModel) (file : string) (fs : FileSystem)
  : result unit * FileSystem :=
  match open_wb file fs with
  | (inl e, fs) => (inl e, fs)
  | (inr _, fs) =>
      match serialize self with
      | inl e => (inl e, fs)
      | inr data => (inr tt, write file data fs)
      end
  end.

(** [load], lines 66-82.  Unpickling is taken not to write files. *)
Definition load (cls : Class) (file : string) (fs : FileSystem)
  : result PyObject * FileSystem :=
  match read_rb file fs with
  | inl e => (inl e, fs)
  | inr data => (deserialize cls data, fs)
  end.

End Model.

(** * A concrete model, for running the definitions *)

Module Example.

(** The classes of the module, two concrete model classes, a class that
    mixes in [_SerializableMixin] without being a model, and a class that
    inherits from nothing here but was passed to [SynDModel.register]. *)
Inductive klass : Type :=
| c_object | c_ABC | c_SerializableMixin | c_SynDModel
| c_Walk | c_Mute | c_Unrelated | c_Registered.

#[local] Instance klass_eq_dec : EqDecision klass.
Proof. solve_decision. Defined.

Definition klass_ancestors (c : klass) : list klass :=
  match c with
  | c_object => []
  | c_ABC | c_SerializableMixin => [c_object]
  | c_SynDModel => [c_SerializableMixin; c_ABC; c_object]
  | c_Walk | c_Mute => [c_SynDModel; c_SerializableMixin; c_ABC; c_object]
  | c_Unrelated => [c_SerializableMixin; c_object]
  | c_Registered => [c_object]
  end.

(** [SynDModel.register(Registered)] makes [Registered] a virtual subclass
    of [SynDModel], and of [ABC], which [SynDModel] inherits from. *)
Definition klass_virtual (sub cls : klass) : bool :=
  match sub, cls with
  | c_Registered, c_SynDModel | c_Registered, c_ABC => true
  | _, _ => false
  end.

(** States are numbers, a trajectory is a list of states, and the one
    attribute of a concrete model counts the requests made to it. *)
#[local] Instance values : PyValues := {|
  Class := klass;
  ancestors := klass_ancestors;
  virtual_subclass := klass_virtual;
  State := nat;
  Traj := list nat;
  Length := nat;
  Kwargs := unit;
  Env := nat;
|}.

(** Three functions defined by name at module level: one that reverses a
    trajectory, one that adds one to every state, and one that drops the
    first state and raises on the empty trajectory; and the anonymous
    [lambda t: t[::-1]]. *)
Inductive fn : Type := reverse | shift | tail_of | anonymous.

Definition fn_call (f : fn) (traj : list nat) : result (list nat) :=
  match f with
  | reverse | anonymous => inr (rev traj)
  | shift => inr (map S traj)
  | tail_of =>
      match traj with
      | [] => inl (OtherError "IndexError")
      | _ :: rest => inr rest
      end
  end.

#[local] Instance functions : Callables := {|
  Callable := fn;
  call := fn_call;
|}.

(** [Walk]: the trajectory from state [s] of length [n] is
    [s, s+1, ..., s+n-1]; its iterator is lazy. *)
Definition walk_call (length : nat) (initial_states : list nat) (kwargs : unit)
    (requests : nat) : result (nat * list nat) * nat :=
  (inr (length, initial_states), S requests).

Definition walk_next (it : nat * list nat) (requests : nat)
  : result (list nat * (nat * list nat)) * nat :=
  match it.2 with
  | [] => (inl StopIteration, S requests)
  | s :: rest => (inr (seq s it.1, (it.1, rest)), S requests)
  end.

Definition walk : ConcreteModel := {|
  RawIter := nat * list nat;
  generate_unmapped_trajectories := walk_call;
  raw_next := walk_next;
|}.

(** [Mute]: a model that yields no trajectory at all. *)
Definition mute : ConcreteModel := {|
  RawIter := unit;
  generate_unmapped_trajectories := λ _ _ _ requests, (inr tt, S requests);
  raw_next := λ _ requests, (inl StopIteration, S requests);
|}.

(** Instances of [Walk]. *)
Definition m_empty : SynDModel :=
  {| ob_type := c_Walk; _backmappers := ∅; ob_state := 0 |}.

Definition m_default : SynDModel :=
  {| ob_type := c_Walk; _backmappers := {[ "default" := reverse ]}; ob_state := 0 |}.

Definition m_two : SynDModel :=
  {| ob_type := c_Walk;
     _backmappers := <[ "shifted" := shift ]> {[ "default" := reverse ]};
     ob_state := 0 |}.

(** An instance whose default backmapper raises on the empty trajectory. *)
Definition m_tail : SynDModel :=
  {| ob_type := c_Walk; _backmappers := {[ "default" := tail_of ]}; ob_state := 0 |}.

(** A caller that, between the [next]s, removes ["default"] and later
    registers [shift] under that name. *)
Definition meddling : list (@action values functions) :=
  [do_remove "default"; do_next; do_add shift "default"; do_next; do_next].

(** A small pickle: a tag, the class, and for an instance the counter and
    the registry entries, each a length-prefixed name and the function
    pickled by reference. *)
Definition klass_code (c : klass) : nat :=
  match c with
  | c_object => 0 | c_ABC => 1 | c_SerializableMixin => 2 | c_SynDModel => 3
  | c_Walk => 4 | c_Mute => 5 | c_Unrelated => 6 | c_Registered => 7
  end.

Definition klass_of_code (n : nat) : option klass :=
  match n with
  | 0 => Some c_object | 1 => Some c_ABC | 2 => Some c_SerializableMixin
  | 3 => Some c_SynDModel | 4 => Some c_Walk | 5 => Some c_Mute
  | 6 => Some c_Unrelated | 7 => Some c_Registered | _ => None
  end.

(** A function is pickled by reference to its name; a lambda has none. *)
Definition fn_code (f : fn) : option nat :=
  match f with
  | reverse => Some 0 | shift => Some 1 | tail_of => Some 2
  | anonymous => None
  end.

Definition fn_of_code (n : nat) : option fn :=
  match n with 0 => Some reverse | 1 => Some shift | 2 => Some tail_of | _ => None end.

Definition dump_entry (e : string * fn) : option (list byte) :=
  n ← Byte.of_nat (String.length e.1);
  k ← fn_code e.2;
  c ← Byte.of_nat k;
  Some (n :: String.list_byte_of_string e.1 ++ [c]).

Fixpoint dump_entries (es : list (string * fn)) : option (list byte) :=
  match es with
  | [] => Some []
  | e :: es' =>
      b ← dump_entry e;
      bs ← dump_entries es';
      Some (b ++ bs)
  end.

Definition small_dumps (obj : PyObject) : result (list byte) :=
  match obj with
  | Foreign cls =>
      match Byte.of_nat (klass_code cls) with
      | Some c => inr [x00; c]
      | None => inl (OtherError "PicklingError")
      end
  | Instance m =>
      match Byte.of_nat (klass_code (ob_type m)), Byte.of_nat (ob_state m),
            dump_entries (map_to_list (_backmappers m)) with
      | Some c, Some e, Some bs => inr (x01 :: c :: e :: bs)
      | _, _, _ => inl (OtherError "PicklingError")
      end
  end.

Fixpoint load_entries (fuel : nat) (bs : list byte) : option (list (string * fn)) :=
  match bs, fuel with
  | [], _ => Some []
  | _ :: _, O => None
  | n :: rest, S fuel' =>
      match drop (Byte.to_nat n) rest with
      | [] => None
      | c :: rest' =>
          f ← fn_of_code (Byte.to_nat c);
          es ← load_entries fuel' rest';
          Some ((String.string_of_list_byte (take (Byte.to_nat n) rest), f) :: es)
      end
  end.

Definition small_loads (bs : list byte) : result PyObject :=
  match bs with
  | tag :: c :: rest =>
      match Byte.to_nat tag, klass_of_code (Byte.to_nat c), rest with
      | 0, Some cls, [] => inr (Foreign cls)
      | 1, Some cls, e :: rest' =>
          match load_entries (List.length rest') rest' with
          | Some es =>
              inr (Instance {| ob_type := cls;
                               _backmappers := list_to_map es;
                               ob_state := Byte.to_nat e |})
          | None => inl (OtherError "UnpicklingError")
          end
      | _, _, _ => inl (OtherError "UnpicklingError")
      end
  | [_] => inl (OtherError "UnpicklingError")
  | [] => inl (OtherError "EOFError")
  end.

Definition small_pickle : Pickle := {|
  pickle_dumps := small_dumps;
  pickle_loads := small_loads;
|}.

(** The bytes of [m_two] under the small pickle. *)
Definition m_two_bytes : list byte :=
  [x01; x04; x00; x07; x73; x68; x69; x66; x74; x65; x64; x01;
   x07; x64; x65; x66; x61; x75; x6c; x74; x00].


(** An instance whose counter does not fit the one byte the small pickle
    gives it, so that pickling it fails. *)
Definition m_big : SynDModel :=
  {| ob_type := c_Walk; _backmappers := {[ "default" := reverse ]}; ob_state := 300 |}.

(** A disk with one file, the pickle of an object of the unrelated class,
    and one path that cannot be written. *)
Definition disk : FileSystem :=
  {| files := {[ "old.pkl" := [x00; x06] ]}; unwritable := {[ "locked.pkl" ]} |}.

End Example.


(** ** Unfolding the monad *)

Ltac run_method :=
  unfold mbind, mret, M_bind, M_ret, bind, ret, raise, get_attr, set_backmappers;
  cbn beta iota.

(** * Properties *)

Section Properties.

Context {py : PyValues} {fns : Callables} {impl : ConcreteModel} {pk : Pickle}.

Lemma with_state_twice (e e' : Env) (self : SynDModel) :
  with_state e' (with_state e self) = with_state e' self.
Proof. reflexivity. Qed.

Lemma with_own_state (self : SynDModel) : with_state (ob_state self) self = self.
Proof. by destruct self. Qed.

Lemma contains_true (d : gmap string Callable) (name : string) :
  is_Some (d !! name) → contains d name = true.
Proof. intros Hin. unfold contains. by apply bool_decide_eq_true. Qed.

Lemma contains_false (d : gmap string Callable) (name : string) :
  d !! name = None → contains d name = false.
Proof.
  intros Hout. unfold contains. apply bool_decide_eq_false.
  rewrite Hout. by intros [? ?].
Qed.

(** ** The registry, one equation per path *)

Lemma add_backmapper_taken (self : SynDModel) (fn : Callable) (name : string) :
  is_Some (_backmappers self !! name) →
  add_backmapper fn name self = (inl (ValueError (already_defined name)), self).
Proof.
  intros Hin. unfold add_backmapper. run_method.
  by rewrite (contains_true _ _ Hin).
Qed.

Lemma add_backmapper_fresh (self : SynDModel) (fn : Callable) (name : string) :
  _backmappers self !! name = None →
  add_backmapper fn name self
  = (inr tt, with_backmappers (<[name := fn]> (_backmappers self)) self).
Proof.
  intros Hout. unfold add_backmapper. run_method.
  by rewrite (contains_false _ _ Hout).
Qed.

Lemma remove_backmapper_absent (self : SynDModel) (name : string) :
  _backmappers self !! name = None →
  remove_backmapper name self = (inl (ValueError (not_defined name)), self).
Proof.
  intros Hout. unfold remove_backmapper. run_method.
  by rewrite (contains_false _ _ Hout).
Qed.

Lemma remove_backmapper_present (self : SynDModel) (name : string) :
  is_Some (_backmappers self !! name) →
  remove_backmapper name self
  = (inr tt, with_backmappers (delete name (_backmappers self)) self).
Proof.
  intros Hin. unfold remove_backmapper. run_method.
  by rewrite (contains_true _ _ Hin).
Qed.

Lemma get_backmapper_absent (self : SynDModel) (name : string) :
  _backmappers self !! name = None →
  get_backmapper name self = (inl (ValueError (not_defined name)), self).
Proof.
  intros Hout. unfold get_backmapper. run_method.
  by rewrite (contains_false _ _ Hout).
Qed.

Lemma get_backmapper_present (self : SynDModel) (name : string) (f : Callable) :
  _backmappers self !! name = Some f →
  get_backmapper name self = (inr f, self).
Proof.
  intros Hin. unfold get_backmapper. run_method.
  rewrite contains_true; [|by rewrite Hin]. by rewrite Hin.
Qed.

(** The registry calls touch nothing but [_backmappers]. *)
Lemma add_backmapper_state (self : SynDModel) (fn : Callable) (name : string) :
  ob_state (add_backmapper fn name self).2 = ob_state self.
Proof.
  destruct (_backmappers self !! name) as [g|] eqn:Hd.
  - by rewrite add_backmapper_taken; [|rewrite Hd].
  - by rewrite add_backmapper_fresh.
Qed.

Lemma remove_backmapper_state (self : SynDModel) (name : string) :
  ob_state (remove_backmapper name self).2 = ob_state self.
Proof.
  destruct (_backmappers self !! name) as [g|] eqn:Hd.
  - by rewrite remove_backmapper_present; [|rewrite Hd].
  - by rewrite remove_backmapper_absent.
Qed.

Lemma resolve_None (self : SynDModel) : resolve None self = (inr None, self).
Proof. reflexivity. Qed.

Lemma resolve_present (self : SynDModel) (name : string) (f : Callable) :
  _backmappers self !! name = Some f →
  resolve (Some name) self = (inr (Some f), self).
Proof.
  intros Hin. unfold resolve. run_method.
  by rewrite (get_backmapper_present _ _ _ Hin).
Qed.

Lemma resolve_absent (self : SynDModel) (name : string) :
  _backmappers self !! name = None →
  resolve (Some name) self = (inl (ValueError (not_defined name)), self).
Proof.
  intros Hout. unfold resolve. run_method.
  by rewrite (get_backmapper_absent _ _ Hout).
Qed.

(** ** The generator, one equation per path *)

Lemma next_created_unresolved (self : SynDModel) (length : Length)
    (initial_states : list State) (backmapper : option string) (kwargs : Kwargs) (e : exn) :
  resolve backmapper self = (inl e, self) →
  next (gi_created length initial_states backmapper kwargs) self
  = (inl (escape_generator e), gi_closed, self).
Proof. intros Hres. unfold next. by rewrite Hres. Qed.

Lemma next_created_resolved (self : SynDModel) (length : Length)
    (initial_states : list State) (backmapper : option string) (kwargs : Kwargs)
    (f : option Callable) (it : RawIter) (env : Env) :
  resolve backmapper self = (inr f, self) →
  generate_unmapped_trajectories length initial_states kwargs (ob_state self) = (inr it, env) →
  next (gi_created length initial_states backmapper kwargs) self
  = next (gi_suspended f it) (with_state env self).
Proof. intros Hres Hcall. unfold next. by rewrite Hres, Hcall. Qed.

Lemma next_created_failed (self : SynDModel) (length : Length)
    (initial_states : list State) (backmapper : option string) (kwargs : Kwargs)
    (f : option Callable) (e : exn) (env : Env) :
  resolve backmapper self = (inr f, self) →
  generate_unmapped_trajectories length initial_states kwargs (ob_state self) = (inl e, env) →
  next (gi_created length initial_states backmapper kwargs) self
  = (inl (escape_generator e), gi_closed, with_state env self).
Proof. intros Hres Hcall. unfold next. by rewrite Hres, Hcall. Qed.

Lemma py_list_created (fuel : nat) (self : SynDModel) (length : Length)
    (initial_states : list State) (backmapper : option string) (kwargs : Kwargs)
    (f : option Callable) (it : RawIter) (env : Env) :
  resolve backmapper self = (inr f, self) →
  generate_unmapped_trajectories length initial_states kwargs (ob_state self) = (inr it, env) →
  py_list fuel (gi_created length initial_states backmapper kwargs) self
  = py_list fuel (gi_suspended f it) (with_state env self).
Proof.
  intros Hres Hcall. destruct fuel as [|fuel]; [done|].
  cbn [py_list]. by rewrite (next_created_resolved _ _ _ _ _ _ _ _ Hres Hcall).
Qed.

(** Draining a started generator gives the raw trajectories, each passed
    through the function the frame holds, as long as that function returns
    on each of them; it leaves the subclass's attributes as draining the
    raw iterator does. *)
Lemma py_list_suspended (fuel : nat) :
  ∀ (backmapper : option Callable) (it : RawIter) (self : SynDModel)
    (raws trajs : list Traj) (env' : Env),
    raw_list fuel it (ob_state self) = Some (inr raws, env') →
    Forall2 (λ raw traj, apply_backmapper backmapper raw = inr traj) raws trajs →
    py_list fuel (gi_suspended backmapper it) self
    = Some (inr trajs, with_state env' self).
Proof.
  induction fuel as [|fuel IH]; intros bm it self raws trajs env' Hraw Hmap; [done|].
  cbn [raw_list] in Hraw. cbn [py_list next]. unfold for_step.
  destruct (raw_next it (ob_state self)) as [[e|[raw it']] env] eqn:Hnext.
  - destruct e; simplify_eq. by inversion Hmap.
  - destruct (raw_list fuel it' env) as [[[e|raws'] env'']|] eqn:Hrest; simplify_eq.
    inversion Hmap as [|? traj ? trajs' Hraw Hrest']; subst.
    rewrite Hraw.
    by rewrite (IH bm it' (with_state env self) raws' trajs' env' Hrest Hrest').
Qed.

Lemma list_trajectories_resolved (fuel : nat) (self self' : SynDModel) (length : Length)
    (initial_states : list State) (backmapper : arg (option string)) (kwargs : Kwargs)
    (f : option Callable) (raws trajs : list Traj) :
  resolve (arg_or (Some "default") backmapper) self = (inr f, self) →
  list_unmapped_trajectories fuel length initial_states kwargs self = Some (inr raws, self') →
  Forall2 (λ raw traj, apply_backmapper f raw = inr traj) raws trajs →
  list_trajectories fuel length initial_states backmapper kwargs self
  = Some (inr trajs, self').
Proof.
  intros Hres Hraw Hmap. unfold list_trajectories, generate_trajectories, ret.
  unfold list_unmapped_trajectories in Hraw.
  destruct (generate_unmapped_trajectories length initial_states kwargs (ob_state self))
    as [[e|it] env] eqn:Hcall; [by simplify_eq|].
  destruct (raw_list fuel it env) as [[r env']|] eqn:Hdrain; simplify_eq.
  rewrite (py_list_created fuel _ _ _ _ _ _ _ _ Hres Hcall).
  by rewrite (py_list_suspended fuel f it (with_state env self) raws trajs env' Hdrain Hmap).
Qed.

Lemma apply_None_all (raws : list Traj) :
  Forall2 (λ raw traj, apply_backmapper None raw = inr traj) raws raws.
Proof. induction raws as [|raw raws IH]; by constructor. Qed.

(** After its first [next] a generator never reads the registry: a step
    depends on the frame and on the subclass's attributes only, and it
    changes nothing else. *)
Lemma next_started (g : generator) (self other : SynDModel) :
  started g →
  ob_state self = ob_state other →
  (next g self).1 = (next g other).1
  ∧ started (next g self).1.2
  ∧ ob_state (next g self).2 = ob_state (next g other).2.
Proof.
  destruct g as [| bm it |]; [done| |done]. intros _ Henv.
  cbn [next]. unfold for_step. rewrite Henv.
  destruct (raw_next it (ob_state other)) as [[e|[raw it']] env]; [by destruct e|].
  by destruct (apply_backmapper bm raw).
Qed.

Lemma consume_started (acts : list action) :
  ∀ (g : generator) (self other : SynDModel),
    started g →
    ob_state self = ob_state other →
    (consume acts g self).1 = (consume (filter is_next acts) g other).1
    ∧ ob_state (consume acts g self).2 = ob_state (consume (filter is_next acts) g other).2.
Proof.
  induction acts as [|a acts IH]; intros g self other Hg Henv; [done|].
  destruct a as [|fn name|name].
  - change (filter is_next (do_next :: acts)) with (do_next :: filter is_next acts).
    cbn [consume].
    destruct (next_started g self other Hg Henv) as (Hstep & Hg' & Henv').
    destruct (next g self) as [[r g'] self'], (next g other) as [[r2 g2] other'].
    cbn [fst snd] in *. simplify_eq.
    destruct (IH g2 self' other' Hg' Henv') as [Hrun Hend].
    destruct (consume acts g2 self') as [[rs g''] self''],
             (consume (filter is_next acts) g2 other') as [[rs2 g2''] other''].
    cbn [fst snd] in *. by simplify_eq.
  - change (filter is_next (do_add fn name :: acts)) with (filter is_next acts).
    cbn [consume]. apply IH; [done|]. by rewrite add_backmapper_state.
  - change (filter is_next (do_remove name :: acts)) with (filter is_next acts).
    cbn [consume]. apply IH; [done|]. by rewrite remove_backmapper_state.
Qed.

(** A frame holding a function that computes [fn] yields [fn] of what the
    raw frame yields. *)
Lemma next_rebound (f : Callable) (fn : Traj → Traj) (g : generator) (self : SynDModel) :
  computes f fn →
  raw_frame g →
  next (rebound (Some f) g) self
  = (mapped fn (next g self).1.1, rebound (Some f) (next g self).1.2, (next g self).2)
  ∧ raw_frame (next g self).1.2.
Proof.
  intros Hf. destruct g as [| bm it |]; [done| |done]. cbn [raw_frame]. intros ->.
  cbn [rebound next]. unfold for_step.
  destruct (raw_next it (ob_state self)) as [[e|[raw it']] env]; [by destruct e|].
  cbn [apply_backmapper]. by rewrite (Hf raw).
Qed.

Lemma consume_rebound (f : Callable) (fn : Traj → Traj) (acts : list action) :
  computes f fn →
  ∀ (g : generator) (self : SynDModel),
    raw_frame g →
    consume acts (rebound (Some f) g) self
    = (map (mapped fn) (consume acts g self).1.1,
       rebound (Some f) (consume acts g self).1.2,
       (consume acts g self).2).
Proof.
  intros Hf. induction acts as [|a acts IH]; intros g self Hg; [done|].
  destruct a as [|fn' name|name]; cbn [consume].
  - destruct (next_rebound f fn g self Hf Hg) as [Hstep Hg']. rewrite Hstep.
    destruct (next g self) as [[r g'] self']. cbn [fst snd] in *.
    rewrite (IH g' self' Hg').
    by destruct (consume acts g' self') as [[rs g''] self''].
  - apply IH, Hg.
  - apply IH, Hg.
Qed.

Lemma consume_created (acts : list action) (self : SynDModel) (length : Length)
    (initial_states : list State) (backmapper : option string) (kwargs : Kwargs)
    (f : option Callable) (it : RawIter) (env : Env) :
  resolve backmapper self = (inr f, self) →
  generate_unmapped_trajectories length initial_states kwargs (ob_state self) = (inr it, env) →
  consume (do_next :: acts) (gi_created length initial_states backmapper kwargs) self
  = consume (do_next :: acts) (gi_suspended f it) (with_state env self).
Proof.
  intros Hres Hcall. cbn [consume].
  by rewrite (next_created_resolved _ _ _ _ _ _ _ _ Hres Hcall).
Qed.

(** The first [next] of any generator leaves it started. *)
Lemma next_leaves_started (g : generator) (self : SynDModel) : started (next g self).1.2.
Proof.
  destruct g as [length initial_states backmapper kwargs | bm it |]; cbn [next]; [| |done].
  - destruct (resolve backmapper self) as [[e|f] self1]; [done|].
    destruct (generate_unmapped_trajectories _ _ _ _) as [[e|it] env]; [done|].
    unfold for_step.
    destruct (raw_next it _) as [[e|[raw it']] env']; [by destruct e|].
    by destruct (apply_backmapper f raw).
  - unfold for_step.
    destruct (raw_next it _) as [[e|[raw it']] env']; [by destruct e|].
    by destruct (apply_backmapper bm raw).
Qed.

Lemma same_backmappers_refl (m : SynDModel) : same_backmappers m m.
Proof. intros name. by destruct (_backmappers m !! name). Qed.

Lemma isinstance_own_class (m : SynDModel) : isinstance (Instance m) (ob_type m) = true.
Proof.
  unfold isinstance. apply orb_true_intro. left.
  apply bool_decide_eq_true. cbn. left.
Qed.

(** What [pickle.loads] raises, [deserialize] lets through. *)
Lemma deserialize_propagates (cls : Class) (serialized : list byte) (e : exn) :
  pickle_loads serialized = inl e → deserialize cls serialized = inl e.
Proof. intros Hloads. unfold deserialize. by rewrite Hloads. Qed.

(** * The claims *)

(** C1. With a function [f] registered as ["default"], whenever the raw
    generation for [length] and [initial_states] yields the trajectories
    [raws] and [f] returns [trajs] on them, one by one,
    [generate_trajectories] with its default arguments (or with
    ["default"] passed by name) yields [trajs], that is [f] of each raw
    trajectory in the same order, and with [backmapper=None] it yields
    [raws] themselves.  The instance ends as the raw generation alone
    leaves it. *)
Theorem pipeline_composition (fuel : nat) (self self' : SynDModel) (length : Length)
    (initial_states : list State) (kwargs : Kwargs) (f : Callable)
    (raws trajs : list Traj) :
  _backmappers self !! "default" = Some f →
  list_unmapped_trajectories fuel length initial_states kwargs self = Some (inr raws, self') →
  Forall2 (λ raw traj, call f raw = inr traj) raws trajs →
  list_trajectories fuel length initial_states Omitted kwargs self = Some (inr trajs, self')
  ∧ list_trajectories fuel length initial_states (Passed (Some "default")) kwargs self
    = Some (inr trajs, self')
  ∧ list_trajectories fuel length initial_states (Passed None) kwargs self
    = Some (inr raws, self').
Proof.
  intros Hdefault Hraw Hf.
  pose proof (resolve_present self "default" f Hdefault) as Hres.
  split; [|split].
  - by apply (list_trajectories_resolved fuel self self' _ _ Omitted _ (Some f) raws).
  - by apply (list_trajectories_resolved fuel self self' _ _ (Passed (Some "default")) _
                (Some f) raws).
  - apply (list_trajectories_resolved fuel self self' _ _ (Passed None) _ None raws);
      [done|done|apply apply_None_all].
Qed.

(** C2. [add_backmapper] under a name that is present raises
    [ValueError] and leaves the whole instance as it was, and so does
    [remove_backmapper] of a name that is absent.  Otherwise [add_backmapper]
    returns with the name bound to the function and [remove_backmapper] with
    the name unbound, every other name and every other attribute being as
    before. *)
Theorem registry_guards (self : SynDModel) (fn : Callable) (name : string) :
  (is_Some (_backmappers self !! name) →
     add_backmapper fn name self = (inl (ValueError (already_defined name)), self))
  ∧ (_backmappers self !! name = None →
     remove_backmapper name self = (inl (ValueError (not_defined name)), self))
  ∧ (_backmappers self !! name = None →
     ∃ self', add_backmapper fn name self = (inr tt, self')
       ∧ _backmappers self' !! name = Some fn
       ∧ (∀ other, other ≠ name → _backmappers self' !! other = _backmappers self !! other)
       ∧ ob_type self' = ob_type self ∧ ob_state self' = ob_state self)
  ∧ (is_Some (_backmappers self !! name) →
     ∃ self', remove_backmapper name self = (inr tt, self')
       ∧ _backmappers self' !! name = None
       ∧ (∀ other, other ≠ name → _backmappers self' !! other = _backmappers self !! other)
       ∧ ob_type self' = ob_type self ∧ ob_state self' = ob_state self).
Proof.
  split; [apply add_backmapper_taken|].
  split; [apply remove_backmapper_absent|].
  split.
  - intros Hout. eexists. split; [by apply add_backmapper_fresh|].
    cbn. split; [apply lookup_insert_eq|].
    split; [|done]. intros other Hne. by apply lookup_insert_ne.
  - intros Hin. eexists. split; [by apply remove_backmapper_present|].
    cbn. split; [apply lookup_delete_eq|].
    split; [|done]. intros other Hne. by apply lookup_delete_ne.
Qed.

(** C3. After [__init__] with an initial default backmapper [f] the
    property [default_backmapper] reads [f]; [add_backmapper(f2, "default")]
    then raises [ValueError] and changes nothing; after
    [remove_backmapper("default")] the property reads [None], and
    [add_backmapper(f2, "default")] then returns, after which the property
    reads [f2].  Writing the property is [add_backmapper(value, "default")]. *)
Theorem default_backmapper_lifecycle (obj : SynDModel) (f f2 : Callable) :
  (∃ m : SynDModel,
     __init__ (Some f) obj = (inr tt, m)
     ∧ default_backmapper m = (inr (Some f), m)
     ∧ add_backmapper f2 "default" m = (inl (ValueError (already_defined "default")), m)
     ∧ ∃ m' : SynDModel,
         remove_backmapper "default" m = (inr tt, m')
         ∧ default_backmapper m' = (inr None, m')
         ∧ ∃ m'' : SynDModel,
             add_backmapper f2 "default" m' = (inr tt, m'')
             ∧ default_backmapper m'' = (inr (Some f2), m''))
  ∧ (∀ (value : Callable) (self : SynDModel),
       set_default_backmapper value self = add_backmapper value "default" self).
Proof.
  split; [|done].
  set (m0 := with_backmappers ∅ obj).
  set (m := with_backmappers (<["default" := f]> ∅) m0).
  set (m' := with_backmappers (delete "default" (_backmappers m)) m).
  set (m'' := with_backmappers (<["default" := f2]> (_backmappers m')) m').
  assert (Hm : _backmappers m !! "default" = Some f) by apply lookup_insert_eq.
  assert (Hm' : _backmappers m' !! "default" = None) by apply lookup_delete_eq.
  assert (Hm'' : _backmappers m'' !! "default" = Some f2) by apply lookup_insert_eq.
  exists m. split.
  { unfold __init__, set_default_backmapper. run_method. fold m0.
    by rewrite (add_backmapper_fresh m0 f "default"). }
  split. { unfold default_backmapper. run_method. by rewrite Hm. }
  split. { apply add_backmapper_taken. by rewrite Hm. }
  exists m'. split. { apply remove_backmapper_present. by rewrite Hm. }
  split. { unfold default_backmapper. run_method. by rewrite Hm'. }
  exists m''. split. { by apply add_backmapper_fresh. }
  unfold default_backmapper. run_method. by rewrite Hm''.
Qed.

(** C4, as the code has it.  With a name that is not registered, the call
    of [generate_trajectories] itself raises nothing: it returns a generator
    and leaves the instance alone.  The first [next] on that generator
    raises the [ValueError] of [get_backmapper], uncaught, and closes the
    generator; the instance is still as it was, the subclass's attributes
    included, so no raw generation has taken place. *)
Theorem unregistered_name_raises_at_first_next (self : SynDModel) (length : Length)
    (initial_states : list State) (name : string) (kwargs : Kwargs) :
  _backmappers self !! name = None →
  ∃ g : generator,
    generate_trajectories length initial_states (Passed (Some name)) kwargs self = (inr g, self)
    ∧ next g self = (inl (ValueError (not_defined name)), gi_closed, self).
Proof.
  intros Hout. eexists. split; [reflexivity|].
  by rewrite (next_created_unresolved _ _ _ _ _ _ (resolve_absent self name Hout)).
Qed.

(** C5, as the code has it.  Let the backmapper selection resolve, to
    [None] or to a registered function, and let that function return on
    each raw trajectory.  Then [generate_trajectories] yields exactly one
    trajectory for each raw trajectory that the raw generation yields, in
    the same order, with or without a backmapper: the i-th is what the
    selection makes of the i-th raw trajectory.  How many that is, is up to
    the concrete model.  Where the model honours the contract of the
    abstract method, one raw trajectory per initial state in the order of
    the states ([R s raw] reads: [raw] is the trajectory generated for
    [s]), there are as many trajectories as initial states and the i-th
    belongs to the i-th state. *)
Theorem trajectories_follow_raw_generation (fuel : nat) (self self' : SynDModel)
    (length : Length) (initial_states : list State) (backmapper : arg (option string))
    (kwargs : Kwargs) (f : option Callable) (raws : list Traj) :
  resolve (arg_or (Some "default") backmapper) self = (inr f, self) →
  list_unmapped_trajectories fuel length initial_states kwargs self = Some (inr raws, self') →
  Forall (λ raw, ∃ traj, apply_backmapper f raw = inr traj) raws →
  ∃ trajs : list Traj,
    list_trajectories fuel length initial_states backmapper kwargs self = Some (inr trajs, self')
    ∧ List.length trajs = List.length raws
    ∧ Forall2 (λ raw traj, apply_backmapper f raw = inr traj) raws trajs
    ∧ ∀ R : State → Traj → Prop,
        Forall2 R initial_states raws →
        List.length trajs = List.length initial_states
        ∧ Forall2 (λ s traj, ∃ raw, R s raw ∧ apply_backmapper f raw = inr traj)
            initial_states trajs.
Proof.
  intros Hres Hraw Hreturns.
  assert (Hmapped : ∃ trajs,
    Forall2 (λ raw traj, apply_backmapper f raw = inr traj) raws trajs).
  { clear Hraw. induction Hreturns as [|raw raws' [traj Htraj] _ [trajs IH]].
    - exists []. constructor.
    - exists (traj :: trajs). by constructor. }
  destruct Hmapped as [trajs Hmap].
  exists trajs. split; [by eapply list_trajectories_resolved|].
  pose proof (Forall2_length _ _ _ Hmap) as Hlen.
  split; [done|]. split; [done|].
  intros R Hcontract. split.
  - rewrite <- Hlen. symmetry. by eapply Forall2_length.
  - clear Hraw Hreturns Hlen. revert trajs Hmap.
    induction Hcontract as [|s raw ss raws' Hs _ IH]; intros trajs Hmap.
    + inversion Hmap. constructor.
    + inversion Hmap as [|? traj ? trajs' Htraj Hrest]; subst.
      constructor; eauto.
Qed.

(** C6. [generate_trajectory] gives what the first [next] gives on the
    generator that [generate_trajectories] makes for the one-element list
    under the same backmapper selection, be it a trajectory or an
    exception.  So whenever listing that generator gives a non-empty list,
    [generate_trajectory] returns its first element; whenever it gives the
    empty list, and in particular whenever the raw generation yields
    nothing, [generate_trajectory] raises [StopIteration]. *)
Theorem single_trajectory_is_first (fuel : nat) (self : SynDModel) (length : Length)
    (initial_state : State) (backmapper : arg (option string)) (kwargs : Kwargs) :
  (∀ g self1,
     generate_trajectories length [initial_state] backmapper kwargs self = (inr g, self1) →
     generate_trajectory length initial_state backmapper kwargs self
     = ((next g self1).1.1, (next g self1).2))
  ∧ (∀ traj trajs self',
     list_trajectories fuel length [initial_state] backmapper kwargs self
     = Some (inr (traj :: trajs), self') →
     (generate_trajectory length initial_state backmapper kwargs self).1 = inr traj)
  ∧ (∀ self',
     list_trajectories fuel length [initial_state] backmapper kwargs self = Some (inr [], self') →
     generate_trajectory length initial_state backmapper kwargs self = (inl StopIteration, self'))
  ∧ (∀ f self',
     resolve (arg_or (Some "default") backmapper) self = (inr f, self) →
     list_unmapped_trajectories fuel length [initial_state] kwargs self = Some (inr [], self') →
     generate_trajectory length initial_state backmapper kwargs self = (inl StopIteration, self')).
Proof.
  assert (Hempty : ∀ self',
    list_trajectories fuel length [initial_state] backmapper kwargs self = Some (inr [], self') →
    generate_trajectory length initial_state backmapper kwargs self = (inl StopIteration, self')).
  { intros self'. unfold list_trajectories, generate_trajectory, generate_trajectories.
    run_method. unfold next_iter. cbn [arg_or].
    destruct fuel as [|fuel]; [done|]. cbn [py_list].
    destruct (next _ self) as [[[e|traj] g'] self1].
    - destruct e; by intros [= <-].
    - destruct (py_list fuel g' self1) as [[[e|trajs] s]|]; by intros [=]. }
  split; [|split; [|split; [exact Hempty|]]].
  - intros g self1. unfold generate_trajectory, generate_trajectories.
    run_method. unfold next_iter. cbn [arg_or]. intros [= <- <-].
    by destruct (next _ self) as [[r g'] self'].
  - intros traj trajs self'.
    unfold list_trajectories, generate_trajectory, generate_trajectories.
    run_method. unfold next_iter. cbn [arg_or].
    destruct fuel as [|fuel]; [done|]. cbn [py_list].
    destruct (next _ self) as [[[e|traj0] g'] self1].
    + destruct e; by intros [=].
    + destruct (py_list fuel g' self1) as [[[e|trajs0] s]|]; intros [=]; by subst.
  - intros f self' Hres Hraw. apply Hempty.
    by rewrite (list_trajectories_resolved fuel self self' _ _ backmapper _ f [] [] Hres Hraw).
Qed.

(** C7, as the code has it.  On a byte sequence from which [pickle.loads]
    rebuilds an object, [deserialize] on a class raises its [TypeError]
    exactly when that object is not an instance of the class, and returns
    the object exactly when it is.  On a byte sequence that [pickle.loads]
    refuses, [deserialize] raises what [pickle.loads] raised, whatever
    its class, and returns nothing. *)
Theorem deserialize_guards_or_propagates (cls : Class) (serialized : list byte) :
  match pickle_loads serialized with
  | inr obj =>
      (isinstance obj cls = false ↔ ∃ msg, deserialize cls serialized = inl (TypeError msg))
      ∧ (isinstance obj cls = false ↔
         deserialize cls serialized = inl (TypeError (not_instance cls)))
      ∧ (isinstance obj cls = true ↔ deserialize cls serialized = inr obj)
  | inl e => deserialize cls serialized = inl e
  end.
Proof.
  unfold deserialize.
  destruct (pickle_loads serialized) as [e|obj]; [done|].
  destruct (isinstance obj cls); cbn.
  - split; [|split]; split; try done. by intros [msg ?].
  - split; [|split]; split; try done. intros _. by eexists.
Qed.


(** C9. The parameter [backmapper] defaults to the name ["default"].  On
    an instance with nothing registered under that name, a call of
    [generate_trajectory] that leaves the parameter out raises
    [ValueError], and a call of [generate_trajectories] that leaves it
    out returns a generator whose first [next] raises [ValueError]; the
    instance stays as it was in both. *)
Theorem default_name_must_be_registered (self : SynDModel) (length : Length)
    (initial_state : State) (initial_states : list State) (kwargs : Kwargs) :
  _backmappers self !! "default" = None →
  arg_or (Some "default") (@Omitted (option string)) = Some "default"
  ∧ generate_trajectory length initial_state Omitted kwargs self
    = (inl (ValueError (not_defined "default")), self)
  ∧ ∃ g : generator,
      generate_trajectories length initial_states Omitted kwargs self = (inr g, self)
      ∧ next g self = (inl (ValueError (not_defined "default")), gi_closed, self).
Proof.
  intros Hout. pose proof (resolve_absent self "default" Hout) as Hres.
  split; [done|]. split.
  - unfold generate_trajectory, generate_trajectories. run_method.
    unfold next_iter. cbn [arg_or].
    by rewrite (next_created_unresolved _ _ _ _ _ _ Hres).
  - eexists. split; [reflexivity|]. cbn [arg_or].
    by rewrite (next_created_unresolved _ _ _ _ _ _ Hres).
Qed.

(** C10. The name is looked up once, at the first [next].  Whatever the
    caller does between the [next]s that follow, adding and removing
    backmappers under any names, the generator returns and raises what it
    would have with the registry left alone.  So if [name] is registered
    with [f] at the first [next] and [f] computes [fn], each trajectory
    yielded is [fn] of the raw trajectory that the same run yields without
    a backmapper, and the instance ends the same.  The lookup is not made
    at the call: if the name is removed between the call and the first
    [next], that [next] raises [ValueError], with the subclass's attributes
    untouched. *)
Theorem backmapper_resolved_once (self : SynDModel) (length : Length)
    (initial_states : list State) (kwargs : Kwargs) (name : string) (f : Callable)
    (acts : list action) :
  _backmappers self !! name = Some f →
  ((consume (do_next :: acts) (gi_created length initial_states (Some name) kwargs) self).1
   = (consume (do_next :: filter is_next acts)
        (gi_created length initial_states (Some name) kwargs) self).1
   ∧ ob_state
       (consume (do_next :: acts) (gi_created length initial_states (Some name) kwargs) self).2
     = ob_state
         (consume (do_next :: filter is_next acts)
            (gi_created length initial_states (Some name) kwargs) self).2)
  ∧ (∀ fn : Traj → Traj,
       computes f fn →
       (consume (do_next :: acts) (gi_created length initial_states (Some name) kwargs) self).1.1
       = map (mapped fn)
           (consume (do_next :: acts) (gi_created length initial_states None kwargs) self).1.1
       ∧ (consume (do_next :: acts) (gi_created length initial_states (Some name) kwargs) self).2
         = (consume (do_next :: acts) (gi_created length initial_states None kwargs) self).2)
  ∧ head (consume (do_remove name :: do_next :: acts)
            (gi_created length initial_states (Some name) kwargs) self).1.1
    = Some (inl (ValueError (not_defined name)))
  ∧ ob_state (consume [do_remove name; do_next]
                (gi_created length initial_states (Some name) kwargs) self).2
    = ob_state self.
Proof.
  intros Hin.
  pose proof (resolve_present self name f Hin) as Hres.
  assert (Hgone : _backmappers (remove_backmapper name self).2 !! name = None).
  { rewrite remove_backmapper_present; [|by rewrite Hin]. apply lookup_delete_eq. }
  pose proof (resolve_absent _ name Hgone) as Hres'.
  split; [|split].
  - cbn [consume].
    pose proof (next_leaves_started
                  (gi_created length initial_states (Some name) kwargs) self) as Hg'.
    destruct (next (gi_created length initial_states (Some name) kwargs) self)
      as [[r g'] self'].
    destruct (consume_started acts g' self' self' Hg' eq_refl) as [Hrun Hend].
    destruct (consume acts g' self') as [[rs g''] self''],
             (consume (filter is_next acts) g' self') as [[rs2 g2''] other''].
    cbn [fst snd] in *. by simplify_eq.
  - intros fn Hf.
    assert (Hrun :
      consume (do_next :: acts) (gi_created length initial_states (Some name) kwargs) self
      = (map (mapped fn)
           (consume (do_next :: acts) (gi_created length initial_states None kwargs) self).1.1,
         rebound (Some f)
           (consume (do_next :: acts) (gi_created length initial_states None kwargs) self).1.2,
         (consume (do_next :: acts) (gi_created length initial_states None kwargs) self).2)).
    { destruct (generate_unmapped_trajectories length initial_states kwargs (ob_state self))
        as [[e|it] env] eqn:Hcall.
      - cbn [consume].
        rewrite (next_created_failed _ _ _ _ _ _ _ _ Hres Hcall).
        rewrite (next_created_failed _ _ _ _ _ _ _ _ (resolve_None self) Hcall).
        pose proof (consume_rebound f fn acts Hf gi_closed (with_state env self) I) as Hrest.
        cbn [rebound] in Hrest.
        destruct (consume acts gi_closed (with_state env self)) as [[rs g] s] eqn:Hc.
        cbn [fst snd map mapped] in *. congruence.
      - rewrite (consume_created _ _ _ _ _ _ _ _ _ Hres Hcall).
        rewrite (consume_created _ _ _ _ _ _ _ _ _ (resolve_None self) Hcall).
        by apply (consume_rebound f fn (do_next :: acts) Hf (gi_suspended None it)). }
    by rewrite Hrun.
  - cbn [consume].
    rewrite (next_created_unresolved _ _ _ _ _ _ Hres'). cbn [escape_generator].
    split.
    + by destruct (consume acts gi_closed _) as [[rs g] s].
    + cbn. apply remove_backmapper_state.
Qed.

(** * Further properties of the registry *)

Lemma with_own_backmappers (self : SynDModel) :
  with_backmappers (_backmappers self) self = self.
Proof. by destruct self. Qed.

(** The two outcomes of each registry call, in one equation. *)
Lemma add_backmapper_cases (self : SynDModel) (fn : Callable) (name : string) :
  add_backmapper fn name self
  = match _backmappers self !! name with
    | Some _ => (inl (ValueError (already_defined name)), self)
    | None => (inr tt, with_backmappers (<[name := fn]> (_backmappers self)) self)
    end.
Proof.
  destruct (_backmappers self !! name) as [g|] eqn:Hd.
  - apply add_backmapper_taken. by rewrite Hd.
  - by apply add_backmapper_fresh.
Qed.

Lemma remove_backmapper_cases (self : SynDModel) (name : string) :
  remove_backmapper name self
  = match _backmappers self !! name with
    | Some _ => (inr tt, with_backmappers (delete name (_backmappers self)) self)
    | None => (inl (ValueError (not_defined name)), self)
    end.
Proof.
  destruct (_backmappers self !! name) as [g|] eqn:Hd.
  - apply remove_backmapper_present. by rewrite Hd.
  - by apply remove_backmapper_absent.
Qed.

Lemma get_backmapper_cases (self : SynDModel) (name : string) :
  get_backmapper name self
  = match _backmappers self !! name with
    | Some f => (inr f, self)
    | None => (inl (ValueError (not_defined name)), self)
    end.
Proof.
  destruct (_backmappers self !! name) as [g|] eqn:Hd.
  - by apply get_backmapper_present.
  - by apply get_backmapper_absent.
Qed.

(** X1. After [add_backmapper(fn, name)] has registered a new name,
    [get_backmapper(name)] returns [fn], and [get_backmapper] of any other
    name returns or raises what it did before. *)
Theorem get_backmapper_after_add (self : SynDModel) (fn : Callable) (name : string) :
  _backmappers self !! name = None →
  get_backmapper name (add_backmapper fn name self).2
  = (inr fn, (add_backmapper fn name self).2)
  ∧ ∀ other, other ≠ name →
      (get_backmapper other (add_backmapper fn name self).2).1
      = (get_backmapper other self).1.
Proof.
  intros Hout. rewrite (add_backmapper_fresh self fn name Hout). cbn [snd]. split.
  - apply get_backmapper_present. apply lookup_insert_eq.
  - intros other Hne. rewrite !get_backmapper_cases. cbn [_backmappers with_backmappers].
    rewrite lookup_insert_ne; [|done]. by destruct (_backmappers self !! other).
Qed.

(** X2. After [remove_backmapper(name)] has removed a registered name,
    [get_backmapper(name)] raises [ValueError], and [get_backmapper] of any
    other name returns or raises what it did before. *)
Theorem get_backmapper_after_remove (self : SynDModel) (name : string) :
  is_Some (_backmappers self !! name) →
  get_backmapper name (remove_backmapper name self).2
  = (inl (ValueError (not_defined name)), (remove_backmapper name self).2)
  ∧ ∀ other, other ≠ name →
      (get_backmapper other (remove_backmapper name self).2).1
      = (get_backmapper other self).1.
Proof.
  intros Hin. rewrite (remove_backmapper_present self name Hin). cbn [snd]. split.
  - apply get_backmapper_absent. apply lookup_delete_eq.
  - intros other Hne. rewrite !get_backmapper_cases. cbn [_backmappers with_backmappers].
    rewrite lookup_delete_ne; [|done]. by destruct (_backmappers self !! other).
Qed.

(** X3. Registering a new name and then removing it gives back the
    instance exactly as it was. *)
Theorem add_then_remove (self : SynDModel) (fn : Callable) (name : string) :
  _backmappers self !! name = None →
  remove_backmapper name (add_backmapper fn name self).2 = (inr tt, self).
Proof.
  intros Hout. rewrite (add_backmapper_fresh self fn name Hout). cbn [snd].
  rewrite remove_backmapper_cases. cbn [_backmappers with_backmappers].
  rewrite lookup_insert_eq. unfold with_backmappers. cbn.
  rewrite delete_insert_id; [|done]. by destruct self.
Qed.

(** X4. Removing a name and then registering the function it had under
    the same name succeeds, and every name then resolves as it did before;
    the class and the other attributes are as before. *)
Theorem remove_then_add (self : SynDModel) (fn : Callable) (name : string) :
  _backmappers self !! name = Some fn →
  (add_backmapper fn name (remove_backmapper name self).2).1 = inr tt
  ∧ same_registry (add_backmapper fn name (remove_backmapper name self).2).2 self.
Proof.
  intros Hin. rewrite (remove_backmapper_present self name); [|by rewrite Hin]. cbn [snd].
  rewrite add_backmapper_cases. cbn [_backmappers with_backmappers].
  rewrite lookup_delete_eq. cbn [fst snd]. split; [done|].
  split; [|done]. intros other. cbn [_backmappers with_backmappers].
  destruct (decide (other = name)) as [->|Hne].
  - by rewrite lookup_insert_eq.
  - by rewrite lookup_insert_ne, lookup_delete_ne.
Qed.

(** X5. Registry calls on two different names do not interfere: in either
    order every name resolves alike afterwards, and the second call returns
    or raises what it would have as the first. *)
Theorem registry_calls_commute (self : SynDModel) (fn1 fn2 : Callable)
    (name1 name2 : string) :
  name1 ≠ name2 →
  (same_registry
     (add_backmapper fn2 name2 (add_backmapper fn1 name1 self).2).2
     (add_backmapper fn1 name1 (add_backmapper fn2 name2 self).2).2
   ∧ (add_backmapper fn2 name2 (add_backmapper fn1 name1 self).2).1
     = (add_backmapper fn2 name2 self).1)
  ∧ (same_registry
       (remove_backmapper name2 (add_backmapper fn1 name1 self).2).2
       (add_backmapper fn1 name1 (remove_backmapper name2 self).2).2
     ∧ (remove_backmapper name2 (add_backmapper fn1 name1 self).2).1
       = (remove_backmapper name2 self).1
     ∧ (add_backmapper fn1 name1 (remove_backmapper name2 self).2).1
       = (add_backmapper fn1 name1 self).1)
  ∧ (same_registry
       (remove_backmapper name2 (remove_backmapper name1 self).2).2
       (remove_backmapper name1 (remove_backmapper name2 self).2).2
     ∧ (remove_backmapper name2 (remove_backmapper name1 self).2).1
       = (remove_backmapper name2 self).1).
Proof.
  intros Hne.
  assert (Hsame : ∀ a b : SynDModel, a = b → same_registry a b) by (by intros a b ->).
  rewrite !add_backmapper_cases, !remove_backmapper_cases.
  destruct (_backmappers self !! name1) as [g1|] eqn:H1,
           (_backmappers self !! name2) as [g2|] eqn:H2;
    cbn [fst snd _backmappers with_backmappers];
    rewrite ?add_backmapper_cases, ?remove_backmapper_cases;
    cbn [fst snd _backmappers with_backmappers];
    rewrite ?lookup_insert_ne, ?lookup_delete_ne, ?H1, ?H2 by done;
    cbn [fst snd]; unfold with_backmappers; cbn;
    repeat split; try done; apply Hsame; try done.
  - f_equal. by apply delete_delete.
  - f_equal. by rewrite delete_insert_ne.
  - f_equal. by apply insert_insert_ne.
Qed.

(** X6. Reading the [default_backmapper] property never raises and never
    changes the instance.  It gives the function that
    [get_backmapper("default")] returns, and [None] exactly where
    [get_backmapper("default")] raises its [ValueError]. *)
Theorem default_backmapper_and_get (self : SynDModel) :
  default_backmapper self = (inr (_backmappers self !! "default"), self)
  ∧ (∀ f, default_backmapper self = (inr (Some f), self)
          ↔ get_backmapper "default" self = (inr f, self))
  ∧ (default_backmapper self = (inr None, self)
     ↔ get_backmapper "default" self = (inl (ValueError (not_defined "default")), self)).
Proof.
  assert (Hread : default_backmapper self = (inr (_backmappers self !! "default"), self))
    by done.
  rewrite Hread, get_backmapper_cases.
  destruct (_backmappers self !! "default") as [g|]; (split; [done|]); split.
  - intros f. split; intros [=]; by subst.
  - split; intros [=].
  - intros f. split; intros [=].
  - done.
Qed.

(** X7. [__init__] never raises, whatever the instance held before, even a
    backmapper named ["default"]: it drops every registered backmapper and
    leaves just the initial default, if one is given.  The other attributes
    are not touched. *)
Theorem init_resets_registry (obj : SynDModel) (default : option Callable) :
  __init__ default obj
  = (inr tt,
     with_backmappers
       match default with
       | Some f => {[ "default" := f ]}
       | None => ∅
       end obj).
Proof.
  unfold __init__, set_default_backmapper. run_method.
  destruct default as [f|]; [|done].
  by rewrite add_backmapper_cases.
Qed.

(** * Further properties of the generator *)

Lemma resolve_unchanged (backmapper : option string) (self : SynDModel) :
  (resolve backmapper self).2 = self.
Proof.
  destruct backmapper as [name|]; [|done].
  unfold resolve. run_method. rewrite get_backmapper_cases.
  by destruct (_backmappers self !! name).
Qed.

Lemma for_step_state (backmapper : option Callable) (it : RawIter) (self : SynDModel) :
  ∃ env, (for_step backmapper it self).2 = with_state env self.
Proof.
  unfold for_step.
  destruct (raw_next it (ob_state self)) as [[e|[raw it']] env]; exists env.
  - by destruct e.
  - by destruct (apply_backmapper backmapper raw).
Qed.

Lemma next_state (g : generator) (self : SynDModel) :
  ∃ env, (next g self).2 = with_state env self.
Proof.
  destruct g as [length initial_states backmapper kwargs | bm it |]; cbn [next].
  - pose proof (resolve_unchanged backmapper self) as Hsame.
    destruct (resolve backmapper self) as [[e|f] self1]; cbn [snd] in Hsame; subst self1.
    + exists (ob_state self). by rewrite with_own_state.
    + destruct (generate_unmapped_trajectories _ _ _ _) as [[e|it] env]; [by exists env|].
      destruct (for_step_state f it (with_state env self)) as [env' Hstep].
      exists env'. by rewrite Hstep.
  - apply for_step_state.
  - exists (ob_state self). by rewrite with_own_state.
Qed.

Lemma py_list_state (fuel : nat) :
  ∀ (g : generator) (self self' : SynDModel) (r : result (list Traj)),
    py_list fuel g self = Some (r, self') → ∃ env, self' = with_state env self.
Proof.
  induction fuel as [|fuel IH]; intros g self self' r; [done|].
  cbn [py_list]. destruct (next_state g self) as [env Hstep].
  destruct (next g self) as [[[e|traj] g'] self1]; cbn [snd] in Hstep; subst self1.
  - destruct e; intros [= <- <-]; by exists env.
  - destruct (py_list fuel g' (with_state env self)) as [[[e|trajs] s]|] eqn:Hrest; [| |done].
    + intros [= <- <-]. destruct (IH _ _ _ _ Hrest) as [env' ->]. by exists env'.
    + intros [= <- <-]. destruct (IH _ _ _ _ Hrest) as [env' ->]. by exists env'.
Qed.

(** X8. The pipeline never touches the registry or the class of the
    instance: one [next] on a generator, a whole listing of
    [generate_trajectories], and a call of [generate_trajectory] each leave
    the instance as it was except for the attributes of the concrete
    subclass, whether they return or raise. *)
Theorem pipeline_keeps_registry (self : SynDModel) :
  (∀ g : generator, ∃ env, (next g self).2 = with_state env self)
  ∧ (∀ fuel length initial_states backmapper kwargs r self',
       list_trajectories fuel length initial_states backmapper kwargs self = Some (r, self') →
       ∃ env, self' = with_state env self)
  ∧ (∀ length initial_state backmapper kwargs,
       ∃ env, (generate_trajectory length initial_state backmapper kwargs self).2
              = with_state env self).
Proof.
  split; [|split].
  - intros g. apply next_state.
  - intros fuel length initial_states backmapper kwargs r self'.
    unfold list_trajectories, generate_trajectories, ret. apply py_list_state.
  - intros length initial_state backmapper kwargs.
    unfold generate_trajectory, generate_trajectories. run_method. unfold next_iter.
    destruct (next_state (gi_created length [initial_state]
                            (arg_or (Some "default") backmapper) kwargs) self) as [env Hstep].
    exists env. cbn [arg_or].
    by destruct (next _ self) as [[r g'] self1].
Qed.

Lemma next_raise_closes (g : generator) (self : SynDModel) (e : exn) :
  (next g self).1.1 = inl e → (next g self).1.2 = gi_closed.
Proof.
  destruct g as [length initial_states backmapper kwargs | bm it |]; cbn [next]; [| |done].
  - destruct (resolve backmapper self) as [[e0|f] self1]; [done|].
    destruct (generate_unmapped_trajectories _ _ _ _) as [[e0|it] env]; [done|].
    unfold for_step.
    destruct (raw_next it _) as [[e0|[raw it']] env']; [by destruct e0|].
    by destruct (apply_backmapper f raw).
  - unfold for_step.
    destruct (raw_next it _) as [[e0|[raw it']] env']; [by destruct e0|].
    by destruct (apply_backmapper bm raw).
Qed.

Lemma consume_closed (k : nat) (self : SynDModel) :
  consume (replicate k do_next) gi_closed self
  = (replicate k (inl StopIteration), gi_closed, self).
Proof.
  induction k as [|k IH]; [done|].
  cbn [replicate consume next]. by rewrite IH.
Qed.

(** X9. A generator that has raised is finished.  Whatever a [next]
    raises, be it [StopIteration] at the end of the trajectories, the
    [ValueError] of an unregistered name, or an exception of the model or
    of the backmapper, every later [next] raises [StopIteration], asks the
    model for nothing and leaves the instance alone. *)
Theorem raised_generator_is_finished (g : generator) (self : SynDModel) (e : exn) (k : nat) :
  (next g self).1.1 = inl e →
  consume (do_next :: replicate k do_next) g self
  = (inl e :: replicate k (inl StopIteration), gi_closed, (next g self).2).
Proof.
  intros Hraise. pose proof (next_raise_closes g self e Hraise) as Hclosed.
  cbn [consume]. destruct (next g self) as [[r g'] self']. cbn [fst snd] in *. subst.
  by rewrite consume_closed.
Qed.

(** [k] turns of the loop on a started generator take [k] trajectories
    from the raw iterator and no more. *)
Lemma consume_nexts_suspended (k : nat) :
  ∀ (backmapper : option Callable) (it it' : RawIter) (self : SynDModel)
    (raws trajs : list Traj) (env' : Env),
    raw_take k it (ob_state self) = (raws, inr it', env') →
    Forall2 (λ raw traj, apply_backmapper backmapper raw = inr traj) raws trajs →
    consume (replicate k do_next) (gi_suspended backmapper it) self
    = (map inr trajs, gi_suspended backmapper it', with_state env' self).
Proof.
  induction k as [|k IH]; intros bm it it' self raws trajs env' Htake Hmap.
  - cbn in Htake. simplify_eq. inversion Hmap. cbn. by rewrite with_own_state.
  - cbn [raw_take] in Htake. cbn [replicate consume next]. unfold for_step.
    destruct (raw_next it (ob_state self)) as [[e|[raw it1]] env1]; [by simplify_eq|].
    destruct (raw_take k it1 env1) as [[raws' r] env2] eqn:Hrest. simplify_eq.
    inversion Hmap as [|? traj ? trajs' Hraw Hmap']; subst.
    rewrite Hraw.
    by rewrite (IH bm it1 it' (with_state env1 self) raws' trajs' env' Hrest Hmap').
Qed.

(** X10. The pipeline is lazy.  With a backmapper selection that resolves
    and a backmapper that returns, the first [k+1] [next]s on a fresh
    generator return the backmapper's results on the first [k+1] raw
    trajectories and leave the raw iterator where [k+1] requests leave it:
    the model has been asked for exactly the trajectories handed out. *)
Theorem pipeline_is_lazy (k : nat) (self : SynDModel) (length : Length)
    (initial_states : list State) (backmapper : option string) (kwargs : Kwargs)
    (f : option Callable) (it it' : RawIter) (env env' : Env) (raws trajs : list Traj) :
  resolve backmapper self = (inr f, self) →
  generate_unmapped_trajectories length initial_states kwargs (ob_state self) = (inr it, env) →
  raw_take (S k) it env = (raws, inr it', env') →
  Forall2 (λ raw traj, apply_backmapper f raw = inr traj) raws trajs →
  consume (replicate (S k) do_next)
    (gi_created length initial_states backmapper kwargs) self
  = (map inr trajs, gi_suspended f it', with_state env' self).
Proof.
  intros Hres Hcall Htake Hmap.
  change (replicate (S k) do_next) with (do_next :: replicate k do_next).
  rewrite (consume_created _ _ _ _ _ _ _ _ _ Hres Hcall).
  exact (consume_nexts_suspended (S k) f it it' (with_state env self)
           raws trajs env' Htake Hmap).
Qed.

Lemma consume_nexts_failing (k : nat) :
  ∀ (backmapper : option Callable) (it it1 it2 : RawIter) (self : SynDModel)
    (raws trajs : list Traj) (raw : Traj) (env1 env2 : Env) (e : exn),
    raw_take k it (ob_state self) = (raws, inr it1, env1) →
    Forall2 (λ raw traj, apply_backmapper backmapper raw = inr traj) raws trajs →
    raw_next it1 env1 = (inr (raw, it2), env2) →
    apply_backmapper backmapper raw = inl e →
    consume (replicate (S k) do_next) (gi_suspended backmapper it) self
    = (map inr trajs ++ [inl (escape_generator e)], gi_closed, with_state env2 self).
Proof.
  induction k as [|k IH]; intros bm it it1 it2 self raws trajs raw env1 env2 e
    Htake Hmap Hnext Hfail.
  - cbn in Htake. simplify_eq. inversion Hmap.
    cbn [replicate consume next]. unfold for_step. by rewrite Hnext, Hfail.
  - cbn [raw_take] in Htake.
    change (replicate (S (S k)) do_next) with (do_next :: replicate (S k) do_next).
    cbn [consume next]. unfold for_step.
    destruct (raw_next it (ob_state self)) as [[e0|[raw0 it0]] env0]; [by simplify_eq|].
    destruct (raw_take k it0 env0) as [[raws' r] env3] eqn:Hrest. simplify_eq.
    inversion Hmap as [|? traj ? trajs' Hraw Hmap']; subst.
    rewrite Hraw.
    by rewrite (IH bm it0 it1 it2 (with_state env0 self) raws' trajs' raw env1 env2 e
                  Hrest Hmap' Hnext Hfail).
Qed.

(** X11. What a backmapper raises is not caught.  If the registered
    function returns on the first [k] raw trajectories and raises on the
    next one, the first [k] [next]s return its results, the one after that
    raises the same exception (a [StopIteration] reaching the caller as
    [RuntimeError]), and the generator is closed, the model having been
    asked for [k+1] trajectories. *)
Theorem backmapper_exception_propagates (k : nat) (self : SynDModel) (length : Length)
    (initial_states : list State) (name : string) (kwargs : Kwargs)
    (f : Callable) (it it1 it2 : RawIter) (env env1 env2 : Env)
    (raws trajs : list Traj) (raw : Traj) (e : exn) :
  _backmappers self !! name = Some f →
  generate_unmapped_trajectories length initial_states kwargs (ob_state self) = (inr it, env) →
  raw_take k it env = (raws, inr it1, env1) →
  Forall2 (λ raw traj, call f raw = inr traj) raws trajs →
  raw_next it1 env1 = (inr (raw, it2), env2) →
  call f raw = inl e →
  consume (replicate (S k) do_next)
    (gi_created length initial_states (Some name) kwargs) self
  = (map inr trajs ++ [inl (escape_generator e)], gi_closed, with_state env2 self).
Proof.
  intros Hin Hcall Htake Hmap Hnext Hfail.
  change (replicate (S k) do_next) with (do_next :: replicate k do_next).
  rewrite (consume_created _ _ _ _ _ _ _ _ _ (resolve_present self name f Hin) Hcall).
  exact (consume_nexts_failing k (Some f) it it1 it2 (with_state env self)
           raws trajs raw env1 env2 e Htake Hmap Hnext Hfail).
Qed.

(** X12. [generate_trajectory] under a registered name is the backmapper
    applied to what [generate_trajectory] returns with [backmapper=None]:
    it returns the function's result on that raw trajectory, or raises what
    the function raises, and leaves the instance the same. *)
Theorem generate_trajectory_composes (self self' : SynDModel) (length : Length)
    (initial_state : State) (name : string) (kwargs : Kwargs) (f : Callable) (raw : Traj) :
  _backmappers self !! name = Some f →
  generate_trajectory length initial_state (Passed None) kwargs self = (inr raw, self') →
  generate_trajectory length initial_state (Passed (Some name)) kwargs self
  = (match call f raw with
     | inr traj => inr traj
     | inl e => inl (escape_generator e)
     end, self').
Proof.
  intros Hin. unfold generate_trajectory, generate_trajectories. run_method.
  unfold next_iter. cbn [arg_or next].
  rewrite (resolve_present self name f Hin), resolve_None.
  destruct (generate_unmapped_trajectories length [initial_state] kwargs (ob_state self))
    as [[e|it] env]; [done|].
  unfold for_step.
  destruct (raw_next it (ob_state (with_state env self))) as [[e|[raw0 it']] env'];
    [by destruct e|].
  cbn [apply_backmapper]. intros [= <- <-].
  by destruct (call f raw0).
Qed.

(** * Further properties of persistence *)

Lemma deserialize_accepts (cls : Class) (serialized : list byte) (obj : PyObject) :
  pickle_loads serialized = inr obj →
  isinstance obj cls = true →
  deserialize cls serialized = inr obj.
Proof. intros Hloads Hinst. unfold deserialize. by rewrite Hloads, Hinst. Qed.

Lemma deserialize_returns (cls : Class) (serialized : list byte) (obj : PyObject) :
  deserialize cls serialized = inr obj →
  pickle_loads serialized = inr obj ∧ isinstance obj cls = true.
Proof.
  unfold deserialize. destruct (pickle_loads serialized) as [e|obj0]; [done|].
  destruct (isinstance obj0 cls) eqn:Hinst; cbn; [|done]. by intros [= <-].
Qed.

(** X13. [deserialize] on a base class accepts the pickle of an instance
    of any class that inherits from it, and returns that instance. *)
Theorem deserialize_accepts_subclasses (cls : Class) (serialized : list byte)
    (obj : PyObject) :
  pickle_loads serialized = inr obj →
  cls ∈ ancestors (type obj) →
  deserialize cls serialized = inr obj.
Proof.
  intros Hloads Hbase. apply deserialize_accepts; [done|].
  unfold isinstance. apply orb_true_intro. left.
  apply bool_decide_eq_true. by right.
Qed.

Lemma save_written (m : SynDModel) (file : string) (fs : FileSystem)
    (serialized : list byte) :
  file ∉ unwritable fs →
  serialize m = inr serialized →
  save m file fs = (inr tt, with_files (<[file := serialized]> (files fs)) fs).
Proof.
  intros Hfree Hdumps.
  unfold save, open_wb. rewrite bool_decide_eq_false_2; [|done]. rewrite Hdumps.
  unfold write, with_files. cbn [files unwritable].
  rewrite lookup_insert_eq. cbn [default app]. by rewrite insert_insert_eq.
Qed.

(** X14. [save] followed by [load].  On a path that can be written, with
    an instance that pickle serializes and round-trips, [save] returns,
    the file holds exactly the serialized bytes whatever it held before,
    no other file changes, and [load] on the class of the instance then
    returns an instance of that class with the same backmappers. *)
Theorem save_then_load (m : SynDModel) (file : string) (fs : FileSystem)
    (serialized : list byte) :
  file ∉ unwritable fs →
  round_trips m →
  serialize m = inr serialized →
  (save m file fs).1 = inr tt
  ∧ files (save m file fs).2 !! file = Some serialized
  ∧ (∀ other, other ≠ file → files (save m file fs).2 !! other = files fs !! other)
  ∧ ∃ m' : SynDModel,
      load (ob_type m) file (save m file fs).2 = (inr (Instance m'), (save m file fs).2)
      ∧ ob_type m' = ob_type m
      ∧ same_backmappers m m'.
Proof.
  intros Hfree Hpickle Hdumps.
  destruct (Hpickle serialized Hdumps) as (m' & Hloads & Hcls & Hsame).
  rewrite (save_written m file fs serialized Hfree Hdumps).
  cbn [fst snd files with_files].
  split; [done|]. split; [apply lookup_insert_eq|]. split.
  - intros other Hne. by rewrite lookup_insert_ne.
  - exists m'. split; [|done].
    unfold load, read_rb. cbn [files with_files]. rewrite lookup_insert_eq.
    rewrite (deserialize_accepts (ob_type m) serialized (Instance m') Hloads); [done|].
    rewrite <- Hcls. apply isinstance_own_class.
Qed.

(** X15. [save] opens the file before it serializes.  When pickling the
    instance raises, on a path that can be written, [save] raises the same
    exception and leaves the file empty: what it held before is lost.  No
    other file changes. *)
Theorem failed_save_empties_file (m : SynDModel) (file : string) (fs : FileSystem)
    (e : exn) :
  file ∉ unwritable fs →
  serialize m = inl e →
  (save m file fs).1 = inl e
  ∧ files (save m file fs).2 !! file = Some []
  ∧ ∀ other, other ≠ file → files (save m file fs).2 !! other = files fs !! other.
Proof.
  intros Hfree Hdumps.
  unfold save, open_wb. rewrite bool_decide_eq_false_2; [|done]. rewrite Hdumps.
  cbn [fst snd files with_files].
  split; [done|]. split; [apply lookup_insert_eq|].
  intros other Hne. by rewrite lookup_insert_ne.
Qed.

(** X16. [load] raises when the file is missing.  Whatever it returns is
    an instance of the class it was called on, rebuilt by pickle from the
    bytes the file holds; and when those bytes rebuild an object that is no
    instance of that class, [load] raises the [TypeError] of
    [deserialize]. *)
Theorem load_returns_instances (cls : Class) (file : string) (fs : FileSystem) :
  (files fs !! file = None →
   (load cls file fs).1 = inl (OtherError "FileNotFoundError"))
  ∧ (∀ obj, (load cls file fs).1 = inr obj →
       isinstance obj cls = true
       ∧ ∃ data, files fs !! file = Some data ∧ pickle_loads data = inr obj)
  ∧ (∀ data obj,
       files fs !! file = Some data →
       pickle_loads data = inr obj →
       isinstance obj cls = false →
       (load cls file fs).1 = inl (TypeError (not_instance cls))).
Proof.
  unfold load, read_rb.
  destruct (files fs !! file) as [data|] eqn:Hfile; cbn [fst snd].
  - split; [done|]. split.
    + intros obj Hobj. destruct (deserialize_returns cls data obj Hobj) as [Hloads Hinst].
      split; [done|]. by exists data.
    + intros data' obj [= <-] Hloads Hinst. unfold deserialize. by rewrite Hloads, Hinst.
  - split; [done|]. split; [by intros obj|]. by intros data obj.
Qed.

End Properties.

(** * The claims on the concrete model *)

Module Runs.

Import Example.

#[local] Existing Instance values.
#[local] Existing Instance functions.
#[local] Existing Instance walk.
#[local] Existing Instance small_pickle.

(** ** The definitions, run *)

Example init_registers_default :
  __init__ (Some reverse) m_empty = (inr tt, m_default)
  ∧ __init__ None m_two = (inr tt, m_empty).
Proof. split; vm_compute; reflexivity. Qed.

Example default_lifecycle_run :
  default_backmapper m_default = (inr (Some reverse), m_default)
  ∧ (remove_backmapper "default" m_default).1 = inr tt
  ∧ default_backmapper (remove_backmapper "default" m_default).2 = (inr None, m_empty)
  ∧ add_backmapper shift "default" (remove_backmapper "default" m_default).2
    = (inr tt, with_backmappers {[ "default" := shift ]} m_empty).
Proof. repeat split; vm_compute; reflexivity. Qed.

(** The first [next] makes two requests to the model, the call and one
    [__next__]; with a name that is not registered it makes none. *)
Example first_next_requests :
  next (gi_created 3 [10; 20] (Some "default") tt) m_default
  = (inr [12; 11; 10], gi_suspended (Some reverse) (3, [20]), with_state 2 m_default)
  ∧ next (gi_created 3 [10; 20] (Some "missing") tt) m_default
    = (inl (ValueError (not_defined "missing")), gi_closed, with_state 0 m_default).
Proof. split; vm_compute; reflexivity. Qed.

(** What a backmapper raises leaves the generator, which is then closed. *)
Example backmapper_error_propagates :
  (consume [do_next; do_next] (gi_created 0 [10; 20] (Some "default") tt) m_tail).1
  = ([inl (OtherError "IndexError"); inl StopIteration], gi_closed).
Proof. vm_compute; reflexivity. Qed.

(** Bytes that are no pickle, the pickle of an object of another class,
    and the pickle of an object of the class registered with [SynDModel]. *)
Example deserialize_refusals :
  deserialize c_Walk [] = inl (OtherError "EOFError")
  ∧ pickle_loads [x00; x06] = inr (Foreign c_Unrelated)
  ∧ deserialize c_SynDModel [x00; x06] = inl (TypeError (not_instance c_SynDModel))
  ∧ deserialize c_SerializableMixin [x00; x06] = inr (Foreign c_Unrelated)
  ∧ deserialize c_SynDModel [x00; x07] = inr (Foreign c_Registered)
  ∧ deserialize c_SerializableMixin [x00; x07]
    = inl (TypeError (not_instance c_SerializableMixin)).
Proof. repeat split; vm_compute; reflexivity. Qed.

(** ** The claims, applied *)

(** C1 on [Walk] with [reverse] as the default backmapper. *)
Lemma pipeline_composition_witness :
  list_unmapped_trajectories 3 3 [10; 20] tt m_default
  = Some (inr [[10; 11; 12]; [20; 21; 22]], with_state 4 m_default)
  ∧ list_trajectories 3 3 [10; 20] Omitted tt m_default
    = Some (inr [[12; 11; 10]; [22; 21; 20]], with_state 4 m_default)
  ∧ list_trajectories 3 3 [10; 20] (Passed (Some "default")) tt m_default
    = Some (inr [[12; 11; 10]; [22; 21; 20]], with_state 4 m_default)
  ∧ list_trajectories 3 3 [10; 20] (Passed None) tt m_default
    = Some (inr [[10; 11; 12]; [20; 21; 22]], with_state 4 m_default).
Proof.
  split; [reflexivity|].
  apply (pipeline_composition (py := values) 3 m_default (with_state (py := values) 4 m_default)
           3 [10; 20] tt reverse [[10; 11; 12]; [20; 21; 22]] [[12; 11; 10]; [22; 21; 20]]);
    [reflexivity | reflexivity | by repeat constructor].
Defined.

(** C2 on the instance with ["default"] registered: the two refusals, and
    the two calls that go through. *)
Lemma registry_guards_witness :
  add_backmapper shift "default" m_default
  = (inl (ValueError (already_defined "default")), m_default)
  ∧ remove_backmapper "shifted" m_default
    = (inl (ValueError (not_defined "shifted")), m_default)
  ∧ (∃ self' : SynDModel,
       add_backmapper shift "shifted" m_default = (inr tt, self')
       ∧ _backmappers self' !! "shifted" = Some shift
       ∧ (∀ other, other ≠ "shifted" →
            _backmappers self' !! other = _backmappers m_default !! other)
       ∧ ob_type self' = ob_type m_default ∧ ob_state self' = ob_state m_default)
  ∧ (∃ self' : SynDModel,
       remove_backmapper "default" m_default = (inr tt, self')
       ∧ _backmappers self' !! "default" = None
       ∧ (∀ other, other ≠ "default" →
            _backmappers self' !! other = _backmappers m_default !! other)
       ∧ ob_type self' = ob_type m_default ∧ ob_state self' = ob_state m_default).
Proof.
  split; [|split; [|split]].
  - apply (proj1 (registry_guards (py := values) m_default shift "default")).
    by exists reverse.
  - apply (proj1 (proj2 (registry_guards (py := values) m_default shift "shifted"))).
    reflexivity.
  - apply (proj1 (proj2 (proj2 (registry_guards (py := values) m_default shift "shifted")))).
    reflexivity.
  - apply (proj2 (proj2 (proj2 (registry_guards (py := values) m_default shift "default")))).
    by exists reverse.
Defined.

(** C4 as worded fails on the instance with an empty registry: the call
    returns a generator. *)
Lemma raises_at_the_call_counterexample :
  _backmappers m_empty !! "missing" = None
  ∧ generate_trajectories 3 [10; 20] (Passed (Some "missing")) tt m_empty
    = (inr (gi_created 3 [10; 20] (Some "missing") tt), m_empty)
  ∧ ¬ raises_at_the_call m_empty 3 [10; 20] "missing" tt.
Proof.
  split; [reflexivity|]. split; [reflexivity|].
  intros [msg Hmsg]. discriminate Hmsg.
Qed.

(** C4 as amended, on the same instance: the request counter is still 0. *)
Lemma unregistered_name_raises_at_first_next_witness :
  ∃ g : generator,
    generate_trajectories 3 [10; 20] (Passed (Some "missing")) tt m_empty = (inr g, m_empty)
    ∧ next g m_empty = (inl (ValueError (not_defined "missing")), gi_closed, m_empty).
Proof.
  apply (unregistered_name_raises_at_first_next (py := values) m_empty 3 [10; 20] "missing" tt).
  reflexivity.
Defined.

(** C5 as worded fails on [Mute]: two initial states, no trajectory, with
    any amount of fuel. *)
Lemma yields_one_per_state_counterexample :
  list_trajectories (impl := mute) 1 3 [10; 20] (Passed None) tt m_default
  = Some (inr [], with_state 2 m_default)
  ∧ ¬ ∃ fuel, yields_one_per_state (impl := mute) fuel m_default 3 [10; 20] (Passed None) tt.
Proof.
  split; [reflexivity|].
  intros (fuel & trajs & self' & Hlist & Hlen).
  revert Hlist. generalize m_default. intros m Hlist.
  destruct fuel as [|fuel]; [discriminate Hlist|].
  cbv in Hlist. injection Hlist as <- _. discriminate Hlen.
Qed.

(** C5 as amended, on [Walk]: the raw trajectory of state [s] is [seq s 3]. *)
Lemma trajectories_follow_raw_generation_witness :
  ∃ trajs : list (list nat),
    list_trajectories 4 3 [10; 20; 30] (Passed (Some "shifted")) tt m_two
    = Some (inr trajs, with_state 5 m_two)
    ∧ List.length trajs = 3
    ∧ Forall2 (λ raw traj, apply_backmapper (Some shift) raw = inr traj)
        [[10; 11; 12]; [20; 21; 22]; [30; 31; 32]] trajs
    ∧ ∀ R : nat → list nat → Prop,
        Forall2 R [10; 20; 30] [[10; 11; 12]; [20; 21; 22]; [30; 31; 32]] →
        List.length trajs = 3
        ∧ Forall2 (λ s traj, ∃ raw, R s raw ∧ apply_backmapper (Some shift) raw = inr traj)
            [10; 20; 30] trajs.
Proof.
  apply (trajectories_follow_raw_generation (py := values) 4 m_two
           (with_state (py := values) 5 m_two) 3 [10; 20; 30]
           (Passed (Some "shifted")) tt (Some shift)
           [[10; 11; 12]; [20; 21; 22]; [30; 31; 32]]).
  - reflexivity.
  - reflexivity.
  - repeat constructor; by eexists.
Defined.

(** C6 on [Walk], and on [Mute], whose generation yields nothing. *)
Lemma single_trajectory_is_first_witness :
  (generate_trajectory 3 10 Omitted tt m_default).1 = inr [12; 11; 10]
  ∧ generate_trajectory (impl := mute) 3 10 Omitted tt m_default
    = (inl StopIteration, with_state 2 m_default).
Proof.
  split.
  - apply (proj1 (proj2 (single_trajectory_is_first (py := values) 2 m_default 3 10 Omitted tt))
             [12; 11; 10] [] (with_state (py := values) 3 m_default)).
    reflexivity.
  - apply (proj2 (proj2 (proj2 (single_trajectory_is_first (py := values) (impl := mute)
                                  1 m_default 3 10 Omitted tt)))
             (Some reverse) (with_state (py := values) 2 m_default)); reflexivity.
Defined.

(** C7 as worded fails on the empty byte sequence: [pickle.loads] raises
    [EOFError], and [deserialize] neither raises a [TypeError] nor returns. *)
Lemma raises_TypeError_or_returns_counterexample :
  deserialize c_Walk [] = inl (OtherError "EOFError")
  ∧ ¬ raises_TypeError_or_returns c_Walk [].
Proof.
  split; [reflexivity|].
  intros [[msg Hmsg]|[obj Hobj]]; [discriminate Hmsg | discriminate Hobj].
Qed.

(** C7 as amended: the bytes of a [Walk] instance are refused by the
    unrelated class and accepted by [SynDModel]; the empty bytes are
    refused by pickle. *)
Lemma deserialize_guards_or_propagates_witness :
  serialize m_two = inr m_two_bytes
  ∧ deserialize c_Unrelated m_two_bytes = inl (TypeError (not_instance c_Unrelated))
  ∧ deserialize c_SynDModel m_two_bytes = inr (Instance m_two)
  ∧ deserialize c_SynDModel [] = inl (OtherError "EOFError").
Proof.
  split; [reflexivity|]. split; [|split].
  - apply (proj1 (proj1 (proj2 (deserialize_guards_or_propagates (py := values)
                                  (pk := small_pickle) c_Unrelated m_two_bytes)))).
    reflexivity.
  - apply (proj1 (proj2 (proj2 (deserialize_guards_or_propagates (py := values)
                                  (pk := small_pickle) c_SynDModel m_two_bytes)))).
    reflexivity.
  - apply (deserialize_guards_or_propagates (py := values) (pk := small_pickle)
             c_SynDModel []).
Defined.



(** C9 on the instance with an empty registry. *)
Lemma default_name_must_be_registered_witness :
  arg_or (Some "default") (@Omitted (option string)) = Some "default"
  ∧ generate_trajectory 3 10 Omitted tt m_empty
    = (inl (ValueError (not_defined "default")), m_empty)
  ∧ ∃ g : generator,
      generate_trajectories 3 [10; 20] Omitted tt m_empty = (inr g, m_empty)
      ∧ next g m_empty = (inl (ValueError (not_defined "default")), gi_closed, m_empty).
Proof.
  apply (default_name_must_be_registered (py := values) m_empty 3 10 [10; 20] tt). reflexivity.
Defined.

(** C10: the caller removes ["default"] after the first trajectory and then
    registers [shift] under that name; [reverse] is still what is applied. *)
Lemma backmapper_resolved_once_witness :
  (consume (do_next :: meddling) (gi_created 3 [10; 20; 30] (Some "default") tt) m_default).1.1
  = [inr [12; 11; 10]; inr [22; 21; 20]; inr [32; 31; 30]; inl StopIteration].
Proof.
  apply (proj1 (proj1 (proj2 (backmapper_resolved_once (py := values) (impl := walk)
                                m_default 3 [10; 20; 30] tt "default" reverse meddling
                                eq_refl))
                  (@rev nat) (λ traj, eq_refl))).
Defined.

(** ** Further properties, applied *)

(** X1: registering ["shifted"] on the instance that has ["default"]. *)
Lemma get_backmapper_after_add_witness :
  get_backmapper "shifted" (add_backmapper shift "shifted" m_default).2
  = (inr shift, (add_backmapper shift "shifted" m_default).2)
  ∧ (get_backmapper "default" (add_backmapper shift "shifted" m_default).2).1 = inr reverse.
Proof.
  split.
  - apply (proj1 (get_backmapper_after_add (py := values) m_default shift "shifted" eq_refl)).
  - apply (proj2 (get_backmapper_after_add (py := values) m_default shift "shifted" eq_refl)
             "default").
    done.
Defined.

(** X2: removing ["shifted"] from the instance with two backmappers. *)
Lemma get_backmapper_after_remove_witness :
  get_backmapper "shifted" (remove_backmapper "shifted" m_two).2
  = (inl (ValueError (not_defined "shifted")), (remove_backmapper "shifted" m_two).2)
  ∧ (get_backmapper "default" (remove_backmapper "shifted" m_two).2).1 = inr reverse.
Proof.
  split.
  - apply (proj1 (get_backmapper_after_remove (py := values) m_two "shifted"
                    (ex_intro _ shift eq_refl))).
  - apply (proj2 (get_backmapper_after_remove (py := values) m_two "shifted"
                    (ex_intro _ shift eq_refl)) "default").
    done.
Defined.

(** X3 *)
Lemma add_then_remove_witness :
  remove_backmapper "shifted" (add_backmapper shift "shifted" m_default).2
  = (inr tt, m_default).
Proof. apply (add_then_remove (py := values) m_default shift "shifted"). reflexivity. Defined.

(** X4 *)
Lemma remove_then_add_witness :
  (add_backmapper shift "shifted" (remove_backmapper "shifted" m_two).2).1 = inr tt
  ∧ same_registry (add_backmapper shift "shifted" (remove_backmapper "shifted" m_two).2).2
      m_two.
Proof. apply (remove_then_add (py := values) m_two shift "shifted"). reflexivity. Defined.

(** X5: a refused registration of ["default"] and an accepted one of
    ["shifted"], in both orders. *)
Lemma registry_calls_commute_witness :
  same_registry
    (add_backmapper shift "shifted" (add_backmapper tail_of "default" m_default).2).2
    (add_backmapper tail_of "default" (add_backmapper shift "shifted" m_default).2).2
  ∧ (add_backmapper shift "shifted" (add_backmapper tail_of "default" m_default).2).1
    = (add_backmapper shift "shifted" m_default).1.
Proof.
  apply (proj1 (registry_calls_commute (py := values) m_default tail_of shift
                  "default" "shifted" ltac:(discriminate))).
Defined.

(** X9: after the [ValueError] of an unregistered name. *)
Lemma raised_generator_is_finished_witness :
  consume [do_next; do_next; do_next] (gi_created 3 [10; 20] (Some "missing") tt) m_default
  = ([inl (ValueError (not_defined "missing")); inl StopIteration; inl StopIteration],
     gi_closed, m_default).
Proof.
  apply (raised_generator_is_finished (py := values) (impl := walk)
           (gi_created (py := values) 3 [10; 20] (Some "missing") tt) m_default
           (ValueError (not_defined "missing")) 2).
  reflexivity.
Defined.

(** X10: two [next]s on three initial states leave the third unasked. *)
Lemma pipeline_is_lazy_witness :
  consume [do_next; do_next] (gi_created 3 [10; 20; 30] (Some "default") tt) m_default
  = ([inr [12; 11; 10]; inr [22; 21; 20]],
     gi_suspended (Some reverse) (3, [30]), with_state 3 m_default).
Proof.
  apply (pipeline_is_lazy (py := values) (impl := walk) 1 m_default 3 [10; 20; 30]
           (Some "default") tt (Some reverse) (3, [10; 20; 30]) (3, [30]) 1 3
           [[10; 11; 12]; [20; 21; 22]] [[12; 11; 10]; [22; 21; 20]]);
    [reflexivity | reflexivity | reflexivity | by repeat constructor].
Defined.

(** X11: every trajectory of length 0 is empty, and [tail_of] raises on it. *)
Lemma backmapper_exception_propagates_witness :
  consume [do_next] (gi_created 0 [10; 20] (Some "default") tt) m_tail
  = ([inl (OtherError "IndexError")], gi_closed, with_state 2 m_tail).
Proof.
  apply (backmapper_exception_propagates (py := values) (impl := walk) 0 m_tail 0 [10; 20]
           "default" tt tail_of (0, [10; 20]) (0, [10; 20]) (0, [20]) 1 1 2 [] [] []
           (OtherError "IndexError"));
    [reflexivity | reflexivity | reflexivity | constructor | reflexivity | reflexivity].
Defined.

(** X12 *)
Lemma generate_trajectory_composes_witness :
  generate_trajectory 3 10 (Passed (Some "default")) tt m_default
  = (inr [12; 11; 10], with_state 2 m_default).
Proof.
  apply (generate_trajectory_composes (py := values) (impl := walk) m_default
           (with_state (py := values) 2 m_default) 3 10 "default" tt reverse [10; 11; 12]);
    reflexivity.
Defined.

(** X13: [SynDModel.deserialize] on the pickle of a [Walk] instance. *)
Lemma deserialize_accepts_subclasses_witness :
  deserialize c_SynDModel m_two_bytes = inr (Instance m_two).
Proof.
  apply (deserialize_accepts_subclasses (py := values) (pk := small_pickle)
           c_SynDModel m_two_bytes (Instance m_two)).
  - reflexivity.
  - cbn. left.
Defined.

(** X14: saving the instance with two backmappers to a new file. *)
Lemma save_then_load_witness :
  (save m_two "model.pkl" disk).1 = inr tt
  ∧ files (save m_two "model.pkl" disk).2 !! "model.pkl" = Some m_two_bytes
  ∧ (∀ other, other ≠ "model.pkl" →
       files (save m_two "model.pkl" disk).2 !! other = files disk !! other)
  ∧ ∃ m' : SynDModel,
      load (ob_type m_two) "model.pkl" (save m_two "model.pkl" disk).2
      = (inr (Instance m'), (save m_two "model.pkl" disk).2)
      ∧ ob_type m' = ob_type m_two
      ∧ same_backmappers m_two m'.
Proof.
  apply (save_then_load (py := values) (pk := small_pickle) m_two "model.pkl" disk m_two_bytes).
  - cbn. intros Hin%elem_of_singleton. discriminate Hin.
  - intros serialized Hdumps. vm_compute in Hdumps. injection Hdumps as <-.
    exists m_two.
    split; [vm_compute; reflexivity|]. split; [reflexivity|].
    apply same_backmappers_refl.
  - reflexivity.
Defined.

(** X15: the instance that cannot be pickled, saved over an existing file. *)
Lemma failed_save_empties_file_witness :
  files disk !! "old.pkl" = Some [x00; x06]
  ∧ (save m_big "old.pkl" disk).1 = inl (OtherError "PicklingError")
  ∧ files (save m_big "old.pkl" disk).2 !! "old.pkl" = Some []
  ∧ ∀ other, other ≠ "old.pkl" →
      files (save m_big "old.pkl" disk).2 !! other = files disk !! other.
Proof.
  split; [reflexivity|].
  apply (failed_save_empties_file (py := values) (pk := small_pickle) m_big "old.pkl" disk
           (OtherError "PicklingError")).
  - cbn. intros Hin%elem_of_singleton. discriminate Hin.
  - vm_compute. reflexivity.
Defined.

End Runs.
